(** * Durable Functions orchestration client: webhook transport, URL
      templating, status-code mapping and the bounded polling loop.

    The development embeds [WebhookClient] (get / post / callWebhook) and
    [DurableOrchestrationClient] (createCheckStatusResponse,
    createHttpManagementPayload, getStatus, raiseEvent, rewind, startNew,
    terminate, waitForCompletionOrCreateCheckStatusResponse and their private
    helpers) and proves the properties the specification states about them.

    JavaScript strings are sequences of UTF-16 code units, JSON values are a
    tree, exceptions and promise rejections are an error result, and the
    network, the clock and the timer are an explicit world that operations
    thread through. *)

From Stdlib Require Import String Ascii DecimalString.
From Stdlib Require Import List NArith ZArith QArith Qminmax Bool Lia Lqa.
From Stdlib Require PrimFloat SpecFloat FloatOps.
Import ListNotations.

Set Warnings "-register-all".

(* ================================================================= *)
(** ** JavaScript strings *)

Module JSString.

(** A JavaScript string is a sequence of UTF-16 code units; [length] is the
    value of the [.length] property. *)
Definition char16 := N.
Definition jsstring := list char16.

(** String literals of the source, written in ASCII. *)
Definition js (s : string) : jsstring :=
  map N_of_ascii (list_ascii_of_string s).

Fixpoint str_eqb (s t : jsstring) : bool :=
  match s, t with
  | [], [] => true
  | c :: s', d :: t' => N.eqb c d && str_eqb s' t'
  | _, _ => false
  end.

(** [p] is a prefix of [s]. *)
Fixpoint startsWith (p s : jsstring) : bool :=
  match p, s with
  | [], _ => true
  | c :: p', d :: s' => N.eqb c d && startsWith p' s'
  | _ :: _, [] => false
  end.

(** The text before and after the first occurrence of [p] in [s]
    (the position [s.indexOf(p)]), or [None] when [p] does not occur. *)
Fixpoint split_first (p s : jsstring) {struct s} : option (jsstring * jsstring) :=
  if startsWith p s then Some ([], skipn (length p) s)
  else match s with
       | [] => None
       | c :: s' =>
           match split_first p s' with
           | Some (a, b) => Some (c :: a, b)
           | None => None
           end
       end.

Definition dollar : char16 := 36%N.
Definition ampersand : char16 := 38%N.
Definition backtick : char16 := 96%N.
Definition apostrophe : char16 := 39%N.

(** The replacement text of [String.prototype.replace] for a string
    pattern (no capture groups): [$$] is a dollar sign, [$&] the matched
    text, [$`] the text before the match, [$'] the text after it; any other
    character, and a dollar sign followed by anything else, is copied. *)
Fixpoint GetSubstitution (matched before after replacement : jsstring) : jsstring :=
  match replacement with
  | [] => []
  | c :: r =>
      if N.eqb c dollar then
        match r with
        | [] => [c]
        | d :: r' =>
            if N.eqb d dollar then dollar :: GetSubstitution matched before after r'
            else if N.eqb d ampersand then matched ++ GetSubstitution matched before after r'
            else if N.eqb d backtick then before ++ GetSubstitution matched before after r'
            else if N.eqb d apostrophe then after ++ GetSubstitution matched before after r'
            else c :: GetSubstitution matched before after r
        end
      else c :: GetSubstitution matched before after r
  end.

(** [s.replace(pattern, replacement)] with a string pattern: only the first
    occurrence is replaced; [s] is returned unchanged when there is none. *)
Definition replace (s pattern replacement : jsstring) : jsstring :=
  match split_first pattern s with
  | Some (before, after) =>
      before ++ GetSubstitution pattern before after replacement ++ after
  | None => s
  end.

(** Number of bytes of the UTF-8 encoding of a string, as written to a
    socket or computed by [Buffer.byteLength]: one byte below U+0080, two
    below U+0800, four for a surrogate pair, three otherwise (a lone
    surrogate is encoded as U+FFFD). *)
Fixpoint utf8_length (s : jsstring) : nat :=
  match s with
  | [] => 0
  | c :: s' =>
      if (c <? 128)%N then 1 + utf8_length s'
      else if (c <? 2048)%N then 2 + utf8_length s'
      else if ((55296 <=? c) && (c <? 56320))%N then
        match s' with
        | d :: s'' =>
            if ((56320 <=? d) && (d <? 57344))%N then 4 + utf8_length s''
            else 3 + utf8_length s'
        | [] => 3
        end
      else 3 + utf8_length s'
  end.

(** [p] occurs in [s]. *)
Definition occurs (p s : jsstring) : Prop :=
  exists a b, s = a ++ p ++ b.

(** [s = a ++ p ++ b] and this is the leftmost occurrence of [p]. *)
Definition first_occurrence (p s a b : jsstring) : Prop :=
  s = a ++ p ++ b /\
  forall a' b', s = a' ++ p ++ b' -> (length a <= length a')%nat.

End JSString.
Import JSString.

(* ================================================================= *)
(** ** Values, errors and the platform *)

(** Decoded JSON bodies, request inputs and header values. [VUndefined] is
    JavaScript's [undefined]; an object keeps its properties in insertion
    order. Numbers that appear in bodies and headers are integers. *)
Inductive value : Type :=
| VUndefined
| VNull
| VBool (b : bool)
| VNum (z : Z)
| VStr (s : jsstring)
| VArr (items : list value)
| VObj (fields : list (jsstring * value)).

(** ToBoolean: [undefined], [null], [false], [0] and the empty string are
    falsy, everything else is truthy. *)
Definition truthy (v : value) : bool :=
  match v with
  | VUndefined | VNull => false
  | VBool b => b
  | VNum z => negb (Z.eqb z 0)
  | VStr s => negb (str_eqb s [])
  | VArr _ | VObj _ => true
  end.

Fixpoint lookup {A : Type} (k : jsstring) (kvs : list (jsstring * A)) : option A :=
  match kvs with
  | [] => None
  | (k', v) :: rest => if str_eqb k k' then Some v else lookup k rest
  end.

(** Property read [v.k] on a value the source has already tested truthy: an
    object yields the property or [undefined]; a decoded JSON array, string,
    number or boolean has no such named property. *)
Definition get_prop (v : value) (k : jsstring) : value :=
  match v with
  | VObj fields => match lookup k fields with Some x => x | None => VUndefined end
  | _ => VUndefined
  end.

(** Strict equality with a string constant. *)
Definition is_string (v : value) (s : jsstring) : bool :=
  match v with
  | VStr t => str_eqb t s
  | _ => false
  end.

(** The errors the client throws (a rejected promise carries one of them).
    Each constructor stands for one message template of the source. *)
Inductive error : Type :=
| TypeErrorInvalidURL (input : jsstring)
    (* new URL(input) on a string that does not parse *)
| TypeErrorReadOfUndefined (property : jsstring)
    (* a property read on undefined *)
| ErrUnrecognizedProtocol (protocol : jsstring)
    (* Unrecognized request protocol: ... Only http: and https: are accepted. *)
| ErrTransport (detail : jsstring)
    (* the error of req.on("error"), passed on unchanged *)
| ErrUnrecognizedStatus (status : Z) (body : value)
    (* Webhook returned unrecognized status ${res.status}: ${res.body} *)
| ErrUnrecognizedStatusCode (status : Z) (body : value)
    (* Webhook returned unrecognized status code ${res.status}: ${res.body} *)
| ErrEventNameInvalid
    (* eventName must be a valid string. *)
| ErrInstanceNotFound (instanceId : jsstring)
    (* No instance with ID '${instanceId}' found. *)
| ErrUnsupportedContent
    (* Only application/json request content is supported *)
| ErrRewindUnsupported
    (* The rewind operation is only supported on failed orchestration instances. *)
| ErrOrchestratorNameInvalid
    (* orchestratorFunctionName must be a valid string. *)
| ErrBody (body : value)
    (* new Error(res.body as string) *)
| ErrTimeoutConfig (timeoutInMilliseconds retryIntervalInMilliseconds : Q).
    (* Total timeout ... (ms) should be bigger than retry timeout ... (ms) *)

(** Result of a computation that may throw. *)
Inductive outcome (A : Type) : Type :=
| Ok (a : A)
| Throw (e : error).
Arguments Ok {A} a.
Arguments Throw {A} e.

Definition obind {A B : Type} (o : outcome A) (f : A -> outcome B) : outcome B :=
  match o with
  | Ok a => f a
  | Throw e => Throw e
  end.

(** The fields of a WHATWG [URL] object that the source reads. *)
Record URL : Type := mkURL {
  protocol : jsstring;
  hostname : jsstring;
  port : jsstring;
  pathname : jsstring;
  search : jsstring;
  origin : jsstring
}.

(** Library functions the source calls and does not define. *)
Class Platform : Type := {
  (** [JSON.stringify]; [None] is [undefined]. *)
  JSON_stringify : value -> option jsstring;
  (** [new URL(s)]; [None] when the constructor throws a TypeError. *)
  parse_url : jsstring -> option URL;
  (** validator's [isURL(s, urlValidationOptions)]. *)
  isURL : jsstring -> bool;
  (** [url.replace(/(connection=)([\w]+)/gi, "$1" + connectionName)]. *)
  replace_connection : jsstring -> jsstring -> jsstring
}.

Record IHttpResponse : Type := mkResponse {
  status : Z;
  body : value;
  headers : list (jsstring * value)
}.

(** What [callWebhook] hands to [http.request] / [https.request]: the
    options object and the data passed to [req.write], if any. *)
Record IRequestOptions : Type := mkOptions {
  opt_hostname : jsstring;
  opt_path : jsstring;
  opt_method : jsstring;
  opt_headers : list (jsstring * value);
  opt_port : option jsstring;
  opt_timeout : option Q
}.

Record sent_request : Type := mkSent {
  tls : bool;
  options : IRequestOptions;
  written : option jsstring
}.

(* ================================================================= *)
(** ** The world: network, clock and timer *)

(** [pending] is what the webhook endpoint will answer to the next requests,
    in order: a decoded response, or a connection error. [sent] logs the
    requests issued so far. [clock] is what
    [Utils.getHrMilliseconds(process.hrtime(hrStart))] will return at the
    next readings, and [slept] logs the arguments of [Utils.sleep]. *)
Record world : Type := mkWorld {
  pending : list (jsstring + IHttpResponse);
  sent : list sent_request;
  clock : list Q;
  slept : list Q
}.

(** An asynchronous operation: it runs in a world and either settles
    (resolves with a value or rejects with an error) in a new world, or
    finds the scripted environment exhausted ([None]). *)
Definition M (A : Type) : Type := world -> option (outcome A * world).

Definition ret {A : Type} (a : A) : M A := fun w => Some (Ok a, w).
Definition throw {A : Type} (e : error) : M A := fun w => Some (Throw e, w).
Definition bind {A B : Type} (m : M A) (f : A -> M B) : M B :=
  fun w =>
    match m w with
    | Some (Ok a, w') => f a w'
    | Some (Throw e, w') => Some (Throw e, w')
    | None => None
    end.
Definition lift {A : Type} (o : outcome A) : M A := fun w => Some (o, w).

Declare Scope client_scope.
Delimit Scope client_scope with client.
Notation "x <- m ;; k" := (bind m (fun x => k))
  (at level 61, m at next level, right associativity) : client_scope.
Notation "m ;;; k" := (bind m (fun _ => k))
  (at level 61, right associativity) : client_scope.
Open Scope client_scope.

(** One request/response exchange, seen after the body has been decoded:
    the scripted answer is the response object [callWebhook] resolves with,
    or the connection error it rejects with. [Wire.exchange] has the step
    before it, the body text and its [JSON.parse]. *)
Definition exchange (r : sent_request) : M IHttpResponse :=
  fun w =>
    match pending w with
    | [] => None
    | answer :: rest =>
        let w' := mkWorld rest (sent w ++ [r]) (clock w) (slept w) in
        match answer with
        | inr res => Some (Ok res, w')
        | inl detail => Some (Throw (ErrTransport detail), w')
        end
    end.

(** [Utils.getHrMilliseconds(process.hrtime(hrStart))]. *)
Definition hrElapsed : M Q :=
  fun w =>
    match clock w with
    | [] => None
    | t :: rest => Some (Ok t, mkWorld (pending w) (sent w) rest (slept w))
    end.

(** [Utils.sleep(ms)]. *)
Definition sleep (ms : Q) : M unit :=
  fun w => Some (Ok tt, mkWorld (pending w) (sent w) (clock w) (slept w ++ [ms])).

Definition Qltb (x y : Q) : bool :=
  match x ?= y with
  | Lt => true
  | _ => false
  end.

(* ================================================================= *)
(** ** WebhookClient *)

Module WebhookClient.
Section Transport.
Context {P : Platform}.

(** The synchronous part of [callWebhook]: the options object, the
    transport module chosen by the URL scheme, and the data written. A
    throw inside the promise executor rejects the promise. *)
Definition build_request (url : URL) (httpMethod : jsstring) (input : value)
    (timeoutInMilliseconds : option Q) : outcome sent_request :=
  let requestData := JSON_stringify input in
  obind
    (match input with
     | VUndefined => Ok (VNum 0)
     | _ =>
         match requestData with
         | Some d => Ok (VNum (Z.of_nat (length d)))
         | None => Throw (TypeErrorReadOfUndefined (js "length"))
         end
     end)
    (fun contentLength =>
       let opts :=
         mkOptions (hostname url) (pathname url ++ search url) httpMethod
           [(js "Content-Type", VStr (js "application/json"));
            (js "Content-Length", contentLength)]
           (if str_eqb (port url) [] then None else Some (port url))
           (match timeoutInMilliseconds with
            | Some t => if Qeq_bool t 0 then None else Some (t + 500)
            | None => None
            end) in
       obind
         (if str_eqb (protocol url) (js "http:") then Ok false
          else if str_eqb (protocol url) (js "https:") then Ok true
          else Throw (ErrUnrecognizedProtocol (protocol url)))
         (fun requestModule =>
            Ok (mkSent requestModule opts
                  (match requestData with
                   | Some d =>
                       if str_eqb httpMethod (js "POST") && negb (str_eqb d [])
                       then Some d else None
                   | None => None
                   end)))).

Definition callWebhook (url : URL) (httpMethod : jsstring) (input : value)
    (timeoutInMilliseconds : option Q) : M IHttpResponse :=
  r <- lift (build_request url httpMethod input timeoutInMilliseconds) ;;
  exchange r.

Definition get (url : URL) (timeoutInMilliseconds : option Q) : M IHttpResponse :=
  callWebhook url (js "GET") VUndefined timeoutInMilliseconds.

Definition post (url : URL) (input : value) (timeoutInMilliseconds : option Q)
    : M IHttpResponse :=
  callWebhook url (js "POST") input timeoutInMilliseconds.

End Transport.
End WebhookClient.

(* ================================================================= *)
(** ** DurableOrchestrationClient *)

(** Modelled from the spec: the class [HttpManagementPayload] is declared in
    ./classes; its fields are the id and the named management URLs (status
    query, send-event, terminate, rewind, purge). In the client's
    configuration [id] holds the id placeholder and the URLs are templates. *)
Record HttpManagementPayload : Type := mkPayload {
  id : jsstring;
  statusQueryGetUri : jsstring;
  sendEventPostUri : jsstring;
  terminatePostUri : jsstring;
  rewindPostUri : jsstring;
  purgeHistoryDeleteUri : jsstring
}.

(** Modelled from the spec: the creation URL templates of ./classes, keyed by
    function-name and instance-id placeholders. *)
Record CreationUrls : Type := mkCreation {
  createNewInstancePostUri : jsstring
}.

(** Modelled from the spec: the class [OrchestrationClientInputData] of
    ./classes, the configuration snapshot (task-hub name and URL templates). *)
Record OrchestrationClientInputData : Type := mkClientData {
  taskHubName : jsstring;
  creationUrls : CreationUrls;
  managementUrls : HttpManagementPayload
}.

(** Modelled from the spec: the string enum [OrchestrationRuntimeStatus] of
    ./classes (Running, Completed, ContinuedAsNew, Failed, Canceled,
    Terminated, Pending, Unknown), each member valued by its name. *)
Module OrchestrationRuntimeStatus.
Definition Running := js "Running".
Definition Completed := js "Completed".
Definition ContinuedAsNew := js "ContinuedAsNew".
Definition Failed := js "Failed".
Definition Canceled := js "Canceled".
Definition Terminated := js "Terminated".
Definition Pending := js "Pending".
Definition Unknown := js "Unknown".
End OrchestrationRuntimeStatus.

(** The triggering request, [IHttpRequest | IRequest]: an optional [url] and
    an optional [http] object with an optional [url]. [None] as a request is
    [undefined]. *)
Record TriggerRequest : Type := mkTrigger {
  req_url : option jsstring;
  req_http : option (option jsstring)
}.

Definition payload_value (p : HttpManagementPayload) : value :=
  VObj [(js "id", VStr (id p));
        (js "statusQueryGetUri", VStr (statusQueryGetUri p));
        (js "sendEventPostUri", VStr (sendEventPostUri p));
        (js "terminatePostUri", VStr (terminatePostUri p));
        (js "rewindPostUri", VStr (rewindPostUri p));
        (js "purgeHistoryDeleteUri", VStr (purgeHistoryDeleteUri p))].

(** A valid [Date], known by the text its [toISOString()] returns. *)
Record Date : Type := mkDate {
  toISOString : jsstring
}.

(** [arr.reduce(callback)] without an initial value, past its first element:
    [acc] is the accumulator, [i] the index of the next element. The
    callback receives the accumulator, the current element and its index. *)
Fixpoint reduce_from {A : Type} (callback : A -> A -> nat -> A) (acc : A) (i : nat)
    (arr : list A) : A :=
  match arr with
  | [] => acc
  | curr :: rest => reduce_from callback (callback acc curr i) (S i) rest
  end.

(** How [getStatusBy] settles: it resolves with the body, rejects with an
    error of the transport, or rejects with its own error
    (Webhook returned status code ${res.status}: ${res.body}). *)
Inductive getStatusBy_settled : Type :=
| Resolved (statuses : value)
| Rejected (e : error)
| RejectedStatusCode (status : Z) (body : value).

Module DurableOrchestrationClient.
Section Client.
Context {P : Platform}.

(** The client object: its configuration snapshot. *)
Variable clientData : OrchestrationClientInputData.

Definition eventNamePlaceholder := js "{eventName}".
Definition functionNamePlaceholder := js "{functionName}".
Definition instanceIdPlaceholder := js "[/{instanceId}]".
Definition reasonPlaceholder := js "{text}".
Definition showHistoryQueryKey := js "showHistory".
Definition showHistoryOutputQueryKey := js "showHistoryOutput".

(** [new URL(s)]. *)
Definition new_URL (s : jsstring) : outcome URL :=
  match parse_url s with
  | Some u => Ok u
  | None => Throw (TypeErrorInvalidURL s)
  end.

Definition hasValidRequestUrl (request : option TriggerRequest) : bool :=
  match request with
  | None => false
  | Some r =>
      let isIRequest := match req_url r with Some _ => true | None => false end in
      let isIHttpRequest := match req_http r with Some _ => true | None => false end in
      isIRequest ||
      (isIHttpRequest &&
       match req_http r with Some (Some _) => true | _ => false end)
  end.

(** [new URL(request.url || request.http.url)]. *)
Definition request_URL (request : option TriggerRequest) : outcome URL :=
  match request with
  | None => Throw (TypeErrorReadOfUndefined (js "url"))
  | Some r =>
      match req_url r with
      | Some u =>
          if negb (str_eqb u []) then new_URL u
          else match req_http r with
               | Some (Some h) => new_URL h
               | Some None => new_URL (js "undefined")
               | None => Throw (TypeErrorReadOfUndefined (js "url"))
               end
      | None =>
          match req_http r with
          | Some (Some h) => new_URL h
          | Some None => new_URL (js "undefined")
          | None => Throw (TypeErrorReadOfUndefined (js "url"))
          end
      end
  end.

(** The body of the [forEach] callback of [getClientResponseLinks] for one
    property value. *)
Definition rewrite_link (request : option TriggerRequest) (instanceId : jsstring)
    (link : jsstring) : outcome jsstring :=
  obind
    (if hasValidRequestUrl request && isURL link then
       obind (request_URL request) (fun requestUrl =>
       obind (new_URL link) (fun dataUrl =>
       Ok (replace link (origin dataUrl) (origin requestUrl))))
     else Ok link)
    (fun link' => Ok (replace link' (id (managementUrls clientData)) instanceId)).

Definition getClientResponseLinks (request : option TriggerRequest)
    (instanceId : jsstring) : outcome HttpManagementPayload :=
  let payload := managementUrls clientData in
  let f := rewrite_link request instanceId in
  obind (f (id payload)) (fun v1 =>
  obind (f (statusQueryGetUri payload)) (fun v2 =>
  obind (f (sendEventPostUri payload)) (fun v3 =>
  obind (f (terminatePostUri payload)) (fun v4 =>
  obind (f (rewindPostUri payload)) (fun v5 =>
  obind (f (purgeHistoryDeleteUri payload)) (fun v6 =>
  Ok (mkPayload v1 v2 v3 v4 v5 v6))))))).

Definition createCheckStatusResponse (request : option TriggerRequest)
    (instanceId : jsstring) : outcome IHttpResponse :=
  obind (getClientResponseLinks request instanceId) (fun httpManagementPayload =>
  Ok (mkResponse 202 (payload_value httpManagementPayload)
        [(js "Content-Type", VStr (js "application/json"));
         (js "Location", VStr (statusQueryGetUri httpManagementPayload));
         (js "Retry-After", VNum 10)])).

Definition createHttpManagementPayload (instanceId : jsstring)
    : outcome HttpManagementPayload :=
  getClientResponseLinks None instanceId.

Definition createHttpResponse (statusCode : Z) (body : value) : IHttpResponse :=
  let bodyAsJson := JSON_stringify body in
  mkResponse statusCode
    (match bodyAsJson with Some s => VStr s | None => VUndefined end)
    [(js "Content-Type", VStr (js "application/json"));
     (js "Content-Length",
      VNum (match bodyAsJson with Some s => Z.of_nat (length s) | None => 0%Z end))].

(** [this.webhookClient.get(new URL(url))] and
    [this.webhookClient.post(new URL(url), input)]. *)
Definition webhook_get (url : jsstring) : M IHttpResponse :=
  u <- lift (new_URL url) ;; WebhookClient.get u None.

Definition webhook_post (url : jsstring) (input : value) : M IHttpResponse :=
  u <- lift (new_URL url) ;; WebhookClient.post u input None.

Definition getStatus_url (instanceId : jsstring) (showHistory showHistoryOutput : bool)
    : jsstring :=
  let template := statusQueryGetUri (managementUrls clientData) in
  let idPlacholder := id (managementUrls clientData) in
  let webhookUrl := replace template idPlacholder instanceId in
  let webhookUrl :=
    if showHistory
    then webhookUrl ++ js "&" ++ showHistoryQueryKey ++ js "=true"
    else webhookUrl in
  if showHistoryOutput
  then webhookUrl ++ js "&" ++ showHistoryOutputQueryKey ++ js "=true"
  else webhookUrl.

(** The [switch (res.status)] of [getStatus]. *)
Definition getStatus_result (res : IHttpResponse) : outcome value :=
  if (status res =? 200)%Z || (status res =? 202)%Z || (status res =? 400)%Z
     || (status res =? 404)%Z || (status res =? 500)%Z
  then Ok (body res)
  else Throw (ErrUnrecognizedStatus (status res) (body res)).

Definition getStatus (instanceId : jsstring) (showHistory showHistoryOutput : bool)
    : M value :=
  res <- webhook_get (getStatus_url instanceId showHistory showHistoryOutput) ;;
  lift (getStatus_result res).

Definition getStatusAll : M value :=
  let idPlaceholder := id (managementUrls clientData) in
  let url := replace (statusQueryGetUri (managementUrls clientData)) idPlaceholder [] in
  res <- webhook_get url ;;
  ret (body res).

Definition raiseEvent_url (instanceId eventName : jsstring)
    (taskHubName' connectionName : option jsstring) : jsstring :=
  let idPlaceholder := id (managementUrls clientData) in
  let url :=
    replace (replace (sendEventPostUri (managementUrls clientData))
               idPlaceholder instanceId)
      eventNamePlaceholder eventName in
  let url :=
    match taskHubName' with
    | Some t => if str_eqb t [] then url else replace url (taskHubName clientData) t
    | None => url
    end in
  match connectionName with
  | Some c => if str_eqb c [] then url else replace_connection url c
  | None => url
  end.

Definition raiseEvent_result (instanceId : jsstring) (res : IHttpResponse)
    : outcome unit :=
  if (status res =? 202)%Z || (status res =? 410)%Z then Ok tt
  else if (status res =? 404)%Z then Throw (ErrInstanceNotFound instanceId)
  else if (status res =? 400)%Z then Throw ErrUnsupportedContent
  else Throw (ErrUnrecognizedStatusCode (status res) (body res)).

Definition raiseEvent (instanceId eventName : jsstring) (eventData : value)
    (taskHubName' connectionName : option jsstring) : M unit :=
  if str_eqb eventName [] then throw ErrEventNameInvalid
  else
    res <- webhook_post
             (raiseEvent_url instanceId eventName taskHubName' connectionName)
             eventData ;;
    lift (raiseEvent_result instanceId res).

Definition rewind_url (instanceId reason : jsstring) : jsstring :=
  let idPlaceholder := id (managementUrls clientData) in
  replace (replace (rewindPostUri (managementUrls clientData)) idPlaceholder instanceId)
    reasonPlaceholder reason.

Definition rewind_result (instanceId : jsstring) (res : IHttpResponse) : outcome unit :=
  if (status res =? 202)%Z then Ok tt
  else if (status res =? 404)%Z then Throw (ErrInstanceNotFound instanceId)
  else if (status res =? 410)%Z then Throw ErrRewindUnsupported
  else Throw (ErrUnrecognizedStatusCode (status res) (body res)).

Definition rewind (instanceId reason : jsstring) : M unit :=
  res <- webhook_post (rewind_url instanceId reason) VUndefined ;;
  lift (rewind_result instanceId res).

Definition startNew_url (orchestratorFunctionName : jsstring)
    (instanceId : option jsstring) : jsstring :=
  let url := createNewInstancePostUri (creationUrls clientData) in
  replace (replace url functionNamePlaceholder orchestratorFunctionName)
    instanceIdPlaceholder
    (match instanceId with
     | Some i => if str_eqb i [] then [] else js "/" ++ i
     | None => []
     end).

(** The tail of [startNew]: a status above 202 throws, a truthy body yields
    its [id], and otherwise the function ends without a return value. *)
Definition startNew_result (res : IHttpResponse) : outcome value :=
  if (202 <? status res)%Z then Throw (ErrBody (body res))
  else if truthy (body res) then Ok (get_prop (body res) (js "id"))
  else Ok VUndefined.

Definition startNew (orchestratorFunctionName : jsstring)
    (instanceId : option jsstring) (input : value) : M value :=
  if str_eqb orchestratorFunctionName [] then throw ErrOrchestratorNameInvalid
  else
    res <- webhook_post (startNew_url orchestratorFunctionName instanceId) input ;;
    lift (startNew_result res).

Definition terminate_url (instanceId reason : jsstring) : jsstring :=
  let idPlaceholder := id (managementUrls clientData) in
  replace (replace (terminatePostUri (managementUrls clientData)) idPlaceholder instanceId)
    reasonPlaceholder reason.

Definition terminate_result (instanceId : jsstring) (res : IHttpResponse)
    : outcome unit :=
  if (status res =? 202)%Z || (status res =? 410)%Z then Ok tt
  else if (status res =? 404)%Z then Throw (ErrInstanceNotFound instanceId)
  else Throw (ErrUnrecognizedStatusCode (status res) (body res)).

Definition terminate (instanceId reason : jsstring) : M unit :=
  res <- webhook_post (terminate_url instanceId reason) VUndefined ;;
  lift (terminate_result instanceId res).

(** The [if (status) switch (status.runtimeStatus)] of the polling loop: the
    response to return for a terminal status, [None] when the loop goes on. *)
Definition terminal_response (status : value) : option IHttpResponse :=
  if truthy status then
    let runtimeStatus := get_prop status (js "runtimeStatus") in
    if is_string runtimeStatus OrchestrationRuntimeStatus.Completed
    then Some (createHttpResponse 200 (get_prop status (js "output")))
    else if is_string runtimeStatus OrchestrationRuntimeStatus.Canceled
            || is_string runtimeStatus OrchestrationRuntimeStatus.Terminated
    then Some (createHttpResponse 200 status)
    else if is_string runtimeStatus OrchestrationRuntimeStatus.Failed
    then Some (createHttpResponse 500 status)
    else None
  else None.

(** The argument of [Utils.sleep], with the numbers taken as the rationals
    they denote and the subtraction exact; [Doubles.sleep_time] is the same
    expression on doubles, where the subtraction rounds. *)
Definition sleep_time (timeoutInMilliseconds retryIntervalInMilliseconds
    hrElapsedMilliseconds : Q) : Q :=
  let remainingTime := timeoutInMilliseconds - hrElapsedMilliseconds in
  if Qltb retryIntervalInMilliseconds remainingTime
  then retryIntervalInMilliseconds
  else remainingTime.

(** One iteration of the [while (true)] loop: [Some r] when the iteration
    returns [r], [None] when it has slept and the loop repeats. *)
Definition poll_iteration (request : option TriggerRequest) (instanceId : jsstring)
    (timeoutInMilliseconds retryIntervalInMilliseconds : Q)
    : M (option IHttpResponse) :=
  status <- getStatus instanceId false false ;;
  match terminal_response status with
  | Some r => ret (Some r)
  | None =>
      hrElapsedMilliseconds <- hrElapsed ;;
      if Qltb hrElapsedMilliseconds timeoutInMilliseconds then
        sleep (sleep_time timeoutInMilliseconds retryIntervalInMilliseconds
                 hrElapsedMilliseconds) ;;;
        ret None
      else
        r <- lift (createCheckStatusResponse request instanceId) ;;
        ret (Some r)
  end.

Fixpoint poll (fuel : nat) (request : option TriggerRequest) (instanceId : jsstring)
    (timeoutInMilliseconds retryIntervalInMilliseconds : Q) : M IHttpResponse :=
  match fuel with
  | O => fun _ => None
  | S fuel' =>
      r <- poll_iteration request instanceId timeoutInMilliseconds
             retryIntervalInMilliseconds ;;
      match r with
      | Some res => ret res
      | None =>
          poll fuel' request instanceId timeoutInMilliseconds
            retryIntervalInMilliseconds
      end
  end.

(** Every iteration that repeats has consumed one scripted answer, so one
    more iteration than there are answers left runs the loop to its end or
    to the end of the script. *)
Definition waitForCompletionOrCreateCheckStatusResponse
    (request : option TriggerRequest) (instanceId : jsstring)
    (timeoutInMilliseconds retryIntervalInMilliseconds : Q) : M IHttpResponse :=
  if Qltb timeoutInMilliseconds retryIntervalInMilliseconds
  then throw (ErrTimeoutConfig timeoutInMilliseconds retryIntervalInMilliseconds)
  else fun w =>
         poll (S (length (pending w))) request instanceId timeoutInMilliseconds
           retryIntervalInMilliseconds w.

Definition createdTimeFromQueryKey := js "createdTimeFrom".
Definition createdTimeToQueryKey := js "createdTimeTo".
Definition runtimeStatusQuerykey := js "runtimeStats".

(** The URL of [getStatusBy]. A [Date] argument is appended when it is
    given, the status list when it is given and not empty; the members of
    the status enum are their names, so [value.toString()] is the name. *)
Definition getStatusBy_url (createdTimeFrom createdTimeTo : option Date)
    (runtimeStatus : option (list jsstring)) : jsstring :=
  let idPlaceholder := id (managementUrls clientData) in
  let url := replace (statusQueryGetUri (managementUrls clientData)) idPlaceholder [] in
  let url :=
    match createdTimeFrom with
    | Some d => url ++ js "&" ++ createdTimeFromQueryKey ++ js "=" ++ toISOString d
    | None => url
    end in
  let url :=
    match createdTimeTo with
    | Some d => url ++ js "&" ++ createdTimeToQueryKey ++ js "=" ++ toISOString d
    | None => url
    end in
  match runtimeStatus with
  | Some (first :: others) =>
      let statusesString :=
        reduce_from
          (fun acc curr i => acc ++ (if (0 <? i)%nat then js "," else []) ++ curr)
          first 1 others in
      url ++ js "&" ++ runtimeStatusQuerykey ++ js "=" ++ statusesString
  | _ => url
  end.

Definition getStatusBy (createdTimeFrom createdTimeTo : option Date)
    (runtimeStatus : option (list jsstring))
    : world -> option (getStatusBy_settled * world) :=
  fun w =>
    match webhook_get (getStatusBy_url createdTimeFrom createdTimeTo runtimeStatus) w with
    | Some (Ok res, w') =>
        Some (if (202 <? status res)%Z
              then RejectedStatusCode (status res) (body res)
              else Resolved (body res), w')
    | Some (Throw e, w') => Some (Rejected e, w')
    | None => None
    end.

(** The default values of the two optional parameters. *)
Definition default_timeoutInMilliseconds : Q := 10000.
Definition default_retryIntervalInMilliseconds : Q := 1000.

End Client.
End DurableOrchestrationClient.

(* ================================================================= *)
(** ** The polling loop on doubles *)

(** JavaScript numbers are IEEE-754 doubles: the comparisons of the loop
    are those of doubles and its subtraction rounds to the nearest double.
    This is the loop of waitForCompletionOrCreateCheckStatusResponse (from
    [process.hrtime()] on) with the timeout, the retry interval, the clock
    readings and the sleeps as doubles; the network is threaded as in
    [DurableOrchestrationClient]. *)
Module Doubles.

(** [net] is the network part of the world (its own clock and timer are
    not used here); [readings] is what
    [Utils.getHrMilliseconds(process.hrtime(hrStart))] will return next, and
    [sleeps] logs the arguments of [Utils.sleep]. *)
Record timed_world : Type := mkTimed {
  net : world;
  readings : list PrimFloat.float;
  sleeps : list PrimFloat.float
}.

Definition T (A : Type) : Type := timed_world -> option (outcome A * timed_world).

Definition ret {A : Type} (a : A) : T A := fun w => Some (Ok a, w).
Definition bind {A B : Type} (m : T A) (f : A -> T B) : T B :=
  fun w =>
    match m w with
    | Some (Ok a, w') => f a w'
    | Some (Throw e, w') => Some (Throw e, w')
    | None => None
    end.
Definition lift {A : Type} (o : outcome A) : T A := fun w => Some (o, w).

(** An operation of the client, run on the network part. *)
Definition on_network {A : Type} (m : M A) : T A :=
  fun w =>
    match m (net w) with
    | Some (r, n) => Some (r, mkTimed n (readings w) (sleeps w))
    | None => None
    end.

Definition hrElapsed : T PrimFloat.float :=
  fun w =>
    match readings w with
    | [] => None
    | t :: rest => Some (Ok t, mkTimed (net w) rest (sleeps w))
    end.

Definition sleep (ms : PrimFloat.float) : T unit :=
  fun w => Some (Ok tt, mkTimed (net w) (readings w) (sleeps w ++ [ms])).

(** The argument of [Utils.sleep]:
    [remainingTime > retryIntervalInMilliseconds
       ? retryIntervalInMilliseconds : remainingTime]. *)
Definition sleep_time (timeoutInMilliseconds retryIntervalInMilliseconds
    hrElapsedMilliseconds : PrimFloat.float) : PrimFloat.float :=
  let remainingTime := PrimFloat.sub timeoutInMilliseconds hrElapsedMilliseconds in
  if PrimFloat.ltb retryIntervalInMilliseconds remainingTime
  then retryIntervalInMilliseconds
  else remainingTime.

Section Loop.
Context {P : Platform}.
Variable clientData : OrchestrationClientInputData.

Definition poll_iteration (request : option TriggerRequest) (instanceId : jsstring)
    (timeoutInMilliseconds retryIntervalInMilliseconds : PrimFloat.float)
    : T (option IHttpResponse) :=
  bind (on_network (DurableOrchestrationClient.getStatus clientData instanceId
                      false false))
    (fun status =>
       match DurableOrchestrationClient.terminal_response status with
       | Some r => ret (Some r)
       | None =>
           bind hrElapsed (fun hrElapsedMilliseconds =>
             if PrimFloat.ltb hrElapsedMilliseconds timeoutInMilliseconds then
               bind (sleep (sleep_time timeoutInMilliseconds
                              retryIntervalInMilliseconds hrElapsedMilliseconds))
                 (fun _ => ret None)
             else
               bind (lift (DurableOrchestrationClient.createCheckStatusResponse
                             clientData request instanceId))
                 (fun r => ret (Some r)))
       end).

Fixpoint poll (fuel : nat) (request : option TriggerRequest) (instanceId : jsstring)
    (timeoutInMilliseconds retryIntervalInMilliseconds : PrimFloat.float)
    : T IHttpResponse :=
  match fuel with
  | O => fun _ => None
  | S fuel' =>
      bind (poll_iteration request instanceId timeoutInMilliseconds
              retryIntervalInMilliseconds)
        (fun r =>
           match r with
           | Some res => ret res
           | None =>
               poll fuel' request instanceId timeoutInMilliseconds
                 retryIntervalInMilliseconds
           end)
  end.

End Loop.

(** The rational number a finite double denotes (0 for an infinity or a
    NaN). *)
Definition exact (x : PrimFloat.float) : Q :=
  match FloatOps.Prim2SF x with
  | SpecFloat.S754_finite negative m e =>
      (if negative then -1 else 1) * (Zpos m # 1) * Qpower 2 e
  | _ => 0
  end.

End Doubles.

(* ================================================================= *)
(** ** The transport before decoding *)

(** [JSON.parse]; [None] when it throws a SyntaxError. *)
Class Decoder : Type := {
  JSON_parse : jsstring -> option value
}.

(** What [callWebhook] does with the [http.IncomingMessage] it is handed:
    it collects the chunks of the body and, at the end, parses the text and
    resolves the promise. A throw in the [end] handler is outside the
    promise executor: the promise is then neither resolved nor rejected. *)
Module Wire.

Record IncomingMessage : Type := mkMessage {
  statusCode : Z;
  data : list jsstring;
  message_headers : list (jsstring * value)
}.

Record wire_world : Type := mkWire {
  incoming : list (jsstring + IncomingMessage);
  wire_sent : list sent_request
}.

(** How the promise of an operation ends: settled (resolved or rejected),
    never settled, or the script of the network exhausted. *)
Inductive promise (A : Type) : Type :=
| Settled (r : outcome A) (w : wire_world)
| NeverSettles (w : wire_world)
| Unscripted.
Arguments Settled {A} r w.
Arguments NeverSettles {A} w.
Arguments Unscripted {A}.

Definition W (A : Type) : Type := wire_world -> promise A.

Definition bind {A B : Type} (m : W A) (f : A -> W B) : W B :=
  fun w =>
    match m w with
    | Settled (Ok a) w' => f a w'
    | Settled (Throw e) w' => Settled (Throw e) w'
    | NeverSettles w' => NeverSettles w'
    | Unscripted => Unscripted
    end.
Definition lift {A : Type} (o : outcome A) : W A := fun w => Settled o w.
Definition throw {A : Type} (e : error) : W A := fun w => Settled (Throw e) w.

Section Receive.
Context {P : Platform} {D : Decoder}.

(** The [data] and [end] handlers: [body += data] for each chunk, then
    [JSON.parse(body)] and the response object; [None] when the parse
    throws. *)
Definition receive (res : IncomingMessage) : option IHttpResponse :=
  let body := fold_left (fun body chunk => body ++ chunk) (data res) [] in
  match JSON_parse body with
  | Some bodyObj => Some (mkResponse (statusCode res) bodyObj (message_headers res))
  | None => None
  end.

Definition exchange (r : sent_request) : W IHttpResponse :=
  fun w =>
    match incoming w with
    | [] => Unscripted
    | answer :: rest =>
        let w' := mkWire rest (wire_sent w ++ [r]) in
        match answer with
        | inl detail => Settled (Throw (ErrTransport detail)) w'
        | inr res =>
            match receive res with
            | Some responseObj => Settled (Ok responseObj) w'
            | None => NeverSettles w'
            end
        end
    end.

Definition callWebhook (url : URL) (httpMethod : jsstring) (input : value)
    (timeoutInMilliseconds : option Q) : W IHttpResponse :=
  bind (lift (WebhookClient.build_request url httpMethod input timeoutInMilliseconds))
    exchange.

Definition post (url : URL) (input : value) (timeoutInMilliseconds : option Q)
    : W IHttpResponse :=
  callWebhook url (js "POST") input timeoutInMilliseconds.

(** [this.webhookClient.post(new URL(url), input)]. *)
Definition webhook_post (url : jsstring) (input : value) : W IHttpResponse :=
  bind (lift (DurableOrchestrationClient.new_URL url)) (fun u => post u input None).

(** [startNew] of the client, over this transport. *)
Definition startNew (clientData : OrchestrationClientInputData)
    (orchestratorFunctionName : jsstring) (instanceId : option jsstring)
    (input : value) : W value :=
  if str_eqb orchestratorFunctionName [] then throw ErrOrchestratorNameInvalid
  else
    bind (webhook_post
            (DurableOrchestrationClient.startNew_url clientData
               orchestratorFunctionName instanceId) input)
      (fun res => lift (DurableOrchestrationClient.startNew_result res)).

End Receive.
End Wire.

(* ================================================================= *)
(** ** What the specification says about substitution *)

(** Every occurrence of the non-empty pattern [p] in [s], scanned from the
    left without overlap, replaced by [r]. [skip] counts the characters of
    an occurrence still to be dropped. *)
Fixpoint replace_every_from (p r s : jsstring) (skip : nat) : jsstring :=
  match s with
  | [] => []
  | c :: s' =>
      match skip with
      | S k => replace_every_from p r s' k
      | O =>
          if startsWith p s
          then r ++ replace_every_from p r s' (length p - 1)
          else c :: replace_every_from p r s' 0
      end
  end.

Definition replace_every_occurrence (s p r : jsstring) : jsstring :=
  replace_every_from p r s 0.

(* ================================================================= *)
(** ** A reference platform and configuration for the examples *)

Module Reference.

Definition quote (s : jsstring) : jsstring :=
  [34%N] ++
  flat_map (fun c => if N.eqb c 34 then [92; 34]%N
                     else if N.eqb c 92 then [92; 92]%N else [c]) s
  ++ [34%N].

Fixpoint join (sep : jsstring) (parts : list jsstring) : jsstring :=
  match parts with
  | [] => []
  | [x] => x
  | x :: rest => x ++ sep ++ join sep rest
  end.

(** [JSON.stringify] on values whose strings hold no control characters and
    whose object keys are not array indices. *)
Fixpoint stringify (v : value) : option jsstring :=
  match v with
  | VUndefined => None
  | VNull => Some (js "null")
  | VBool b => Some (if b then js "true" else js "false")
  | VNum z => Some (js (DecimalString.NilEmpty.string_of_int (Z.to_int z)))
  | VStr s => Some (quote s)
  | VArr items =>
      Some (js "[" ++
            join (js ",")
              (map (fun i => match stringify i with
                             | Some s => s
                             | None => js "null"
                             end) items)
            ++ js "]")
  | VObj fields =>
      Some (js "{" ++
            join (js ",")
              (flat_map (fun kv => match stringify (snd kv) with
                                   | Some s => [quote (fst kv) ++ js ":" ++ s]
                                   | None => []
                                   end) fields)
            ++ js "}")
  end.

(** A parser for URLs of the form scheme://host[:port][/path][?query]. *)
Definition parse (s : jsstring) : option URL :=
  match split_first (js "://") s with
  | None => None
  | Some (scheme, rest) =>
      let '(authority, pathquery) :=
        match split_first (js "/") rest with
        | Some (a, p) => (a, js "/" ++ p)
        | None => (rest, js "/")
        end in
      let '(path, query) :=
        match split_first (js "?") pathquery with
        | Some (p, q) => (p, js "?" ++ q)
        | None => (pathquery, [])
        end in
      let '(host, prt) :=
        match split_first (js ":") authority with
        | Some (h, p) => (h, p)
        | None => (authority, [])
        end in
      if str_eqb scheme [] || str_eqb host [] then None
      else Some (mkURL (scheme ++ js ":") host prt path query
                   (scheme ++ js "://" ++ authority))
  end.

Definition is_url (s : jsstring) : bool :=
  startsWith (js "http://") s || startsWith (js "https://") s.

Definition word_char (c : char16) : bool :=
  ((48 <=? c) && (c <=? 57) || (65 <=? c) && (c <=? 90)
   || (97 <=? c) && (c <=? 122) || (c =? 95))%N.

Fixpoint drop_word (s : jsstring) : jsstring :=
  match s with
  | c :: s' => if word_char c then drop_word s' else s
  | [] => []
  end.

(** The value of the first [connection=] parameter replaced. *)
Definition set_connection (url connectionName : jsstring) : jsstring :=
  match split_first (js "connection=") url with
  | Some (a, b) => a ++ js "connection=" ++ connectionName ++ drop_word b
  | None => url
  end.

#[export] Instance platform : Platform :=
  {| JSON_stringify := stringify;
     parse_url := parse;
     isURL := is_url;
     replace_connection := set_connection |}.

Definition base := js "http://localhost:7071/runtime/webhooks/durabletask/".
Definition query := js "?taskHub=hub&connection=Storage&code=k".

Definition clientData : OrchestrationClientInputData :=
  mkClientData (js "hub")
    (mkCreation (base ++ js "orchestrators/{functionName}[/{instanceId}]?code=k"))
    (mkPayload (js "INSTANCEID")
       (base ++ js "instances/INSTANCEID" ++ query)
       (base ++ js "instances/INSTANCEID/raiseEvent/{eventName}" ++ query)
       (base ++ js "instances/INSTANCEID/terminate?reason={text}&code=k")
       (base ++ js "instances/INSTANCEID/rewind?reason={text}&code=k")
       (base ++ js "instances/INSTANCEID" ++ query)).

(** A configuration whose status-query template names the id twice. *)
Definition clientData_twice : OrchestrationClientInputData :=
  mkClientData (js "hub")
    (mkCreation (base ++ js "orchestrators/{functionName}[/{instanceId}]?code=k"))
    (mkPayload (js "INSTANCEID")
       (js "http://h/instances/INSTANCEID?again=INSTANCEID")
       (js "http://h/e") (js "http://h/t") (js "http://h/r") (js "http://h/p")).

Definition status_body (runtimeStatus : jsstring) (output : value) : value :=
  VObj [(js "name", VStr (js "Foo"));
        (js "instanceId", VStr (js "abc"));
        (js "runtimeStatus", VStr runtimeStatus);
        (js "output", output)].

Definition answer (code : Z) (b : value) : jsstring + IHttpResponse :=
  inr (mkResponse code b []).

Definition world_of (answers : list (jsstring + IHttpResponse)) (readings : list Q)
    : world :=
  mkWorld answers [] readings [].

(** A JSON parser for the examples: literals, integers, strings with their
    escapes, arrays and objects; a later member of an object overrides an
    earlier one of the same name. *)
Fixpoint skip_ws (s : jsstring) : jsstring :=
  match s with
  | c :: s' =>
      if ((c =? 32) || (c =? 9) || (c =? 10) || (c =? 13))%N then skip_ws s' else s
  | [] => []
  end.

Definition literal (text : jsstring) (v : value) (s : jsstring)
    : option (value * jsstring) :=
  if startsWith text s then Some (v, skipn (length text) s) else None.

Definition hex_digit (c : char16) : option N :=
  if ((48 <=? c) && (c <=? 57))%N then Some (c - 48)%N
  else if ((97 <=? c) && (c <=? 102))%N then Some (c - 87)%N
  else if ((65 <=? c) && (c <=? 70))%N then Some (c - 55)%N
  else None.

Definition unescape (c : char16) : option char16 :=
  if (c =? 34)%N then Some 34%N
  else if (c =? 92)%N then Some 92%N
  else if (c =? 47)%N then Some 47%N
  else if (c =? 98)%N then Some 8%N
  else if (c =? 102)%N then Some 12%N
  else if (c =? 110)%N then Some 10%N
  else if (c =? 114)%N then Some 13%N
  else if (c =? 116)%N then Some 9%N
  else None.

(** The characters of a string up to its closing quote. *)
Fixpoint string_body (s acc : jsstring) {struct s} : option (jsstring * jsstring) :=
  match s with
  | [] => None
  | c :: s' =>
      if (c =? 34)%N then Some (acc, s')
      else if (c =? 92)%N then
        match s' with
        | e :: s'' =>
            if (e =? 117)%N then
              match s'' with
              | h1 :: h2 :: h3 :: h4 :: s3 =>
                  match hex_digit h1, hex_digit h2, hex_digit h3, hex_digit h4 with
                  | Some a, Some b, Some c', Some d =>
                      string_body s3 (acc ++ [(((a * 16 + b) * 16 + c') * 16 + d)%N])
                  | _, _, _, _ => None
                  end
              | _ => None
              end
            else
              match unescape e with
              | Some x => string_body s'' (acc ++ [x])
              | None => None
              end
        | [] => None
        end
      else if (c <? 32)%N then None
      else string_body s' (acc ++ [c])
  end.

Fixpoint digits (s : jsstring) (acc : Z) : Z * jsstring :=
  match s with
  | c :: s' =>
      if ((48 <=? c) && (c <=? 57))%N
      then digits s' (acc * 10 + Z.of_N (c - 48))%Z
      else (acc, s)
  | [] => (acc, [])
  end.

Definition integer (s : jsstring) : option (value * jsstring) :=
  let '(negative, s1) :=
    match s with
    | c :: s' => if (c =? 45)%N then (true, s') else (false, s)
    | [] => (false, s)
    end in
  match s1 with
  | c :: _ =>
      if ((48 <=? c) && (c <=? 57))%N then
        let '(z, rest) := digits s1 0%Z in
        match rest with
        | d :: _ =>
            if ((d =? 46) || (d =? 101) || (d =? 69))%N then None
            else Some (VNum (if negative then - z else z)%Z, rest)
        | [] => Some (VNum (if negative then - z else z)%Z, rest)
        end
      else None
  | [] => None
  end.

Fixpoint items {A : Type} (fuel : nat) (item : jsstring -> option (A * jsstring))
    (close : char16) (s : jsstring) : option (list A * jsstring) :=
  match fuel with
  | O => None
  | S fuel' =>
      match item s with
      | Some (x, s1) =>
          match skip_ws s1 with
          | c :: s2 =>
              if (c =? 44)%N then
                match items fuel' item close s2 with
                | Some (xs, s3) => Some (x :: xs, s3)
                | None => None
                end
              else if (c =? close)%N then Some ([x], s2)
              else None
          | [] => None
          end
      | None => None
      end
  end.

Definition sequence {A : Type} (fuel : nat) (item : jsstring -> option (A * jsstring))
    (close : char16) (s : jsstring) : option (list A * jsstring) :=
  match skip_ws s with
  | c :: s' => if (c =? close)%N then Some ([], s') else items fuel item close s
  | [] => None
  end.

Definition member (item : jsstring -> option (value * jsstring)) (s : jsstring)
    : option ((jsstring * value) * jsstring) :=
  match skip_ws s with
  | c :: s' =>
      if (c =? 34)%N then
        match string_body s' [] with
        | Some (k, r) =>
            match skip_ws r with
            | d :: r' =>
                if (d =? 58)%N then
                  match item r' with
                  | Some (v, r'') => Some ((k, v), r'')
                  | None => None
                  end
                else None
            | [] => None
            end
        | None => None
        end
      else None
  | [] => None
  end.

Fixpoint set_field (k : jsstring) (v : value) (fields : list (jsstring * value))
    : list (jsstring * value) :=
  match fields with
  | [] => [(k, v)]
  | (k', v') :: rest =>
      if str_eqb k k' then (k', v) :: rest else (k', v') :: set_field k v rest
  end.

Fixpoint value_at (fuel : nat) (s : jsstring) : option (value * jsstring) :=
  match fuel with
  | O => None
  | S fuel' =>
      match skip_ws s with
      | [] => None
      | c :: s' =>
          if (c =? 110)%N then literal (js "null") VNull (c :: s')
          else if (c =? 116)%N then literal (js "true") (VBool true) (c :: s')
          else if (c =? 102)%N then literal (js "false") (VBool false) (c :: s')
          else if (c =? 34)%N then
            match string_body s' [] with
            | Some (str, r) => Some (VStr str, r)
            | None => None
            end
          else if (c =? 91)%N then
            match sequence fuel' (value_at fuel') 93%N s' with
            | Some (xs, r) => Some (VArr xs, r)
            | None => None
            end
          else if (c =? 123)%N then
            match sequence fuel' (member (value_at fuel')) 125%N s' with
            | Some (kvs, r) =>
                Some (VObj (fold_left (fun acc kv => set_field (fst kv) (snd kv) acc)
                              kvs []), r)
            | None => None
            end
          else integer (c :: s')
      end
  end.

Definition parse_json (s : jsstring) : option value :=
  match value_at (S (length s)) s with
  | Some (v, rest) =>
      match skip_ws rest with
      | [] => Some v
      | _ :: _ => None
      end
  | None => None
  end.

#[export] Instance decoder : Decoder := {| JSON_parse := parse_json |}.

(** A configuration whose templates are relative: none parses as a URL. *)
Definition clientData_relative : OrchestrationClientInputData :=
  mkClientData (js "hub")
    (mkCreation (js "/orchestrators/{functionName}[/{instanceId}]"))
    (mkPayload (js "INSTANCEID")
       (js "/instances/INSTANCEID")
       (js "/instances/INSTANCEID/raiseEvent/{eventName}")
       (js "/instances/INSTANCEID/terminate?reason={text}")
       (js "/instances/INSTANCEID/rewind?reason={text}")
       (js "/instances/INSTANCEID")).

End Reference.

(* ================================================================= *)
(** ** Vocabulary of the statements *)

(** [t'] is [t] with the leftmost occurrence of [p] replaced by [i] and
    nothing else changed ([t] itself when [p] does not occur). *)
Definition first_replaced (p i t t' : jsstring) : Prop :=
  (forall a b, first_occurrence p t a b -> t' = a ++ i ++ b) /\
  (~ occurs p t -> t' = t).

(** The status object [v] carries the runtime status [s]. *)
Definition runtimeStatus_is (v : value) (s : jsstring) : Prop :=
  exists fields, v = VObj fields /\ lookup (js "runtimeStatus") fields = Some (VStr s).

(** The status object's [output] property ([undefined] when absent). *)
Definition output_of (v : value) : value :=
  match v with
  | VObj fields =>
      match lookup (js "output") fields with
      | Some o => o
      | None => VUndefined
      end
  | _ => VUndefined
  end.

Definition terminal_status (s : jsstring) : Prop :=
  s = OrchestrationRuntimeStatus.Completed \/
  s = OrchestrationRuntimeStatus.Canceled \/
  s = OrchestrationRuntimeStatus.Terminated \/
  s = OrchestrationRuntimeStatus.Failed.

(** No terminal status is observed in [v]. *)
Definition nonterminal (v : value) : Prop :=
  forall s, runtimeStatus_is v s -> ~ terminal_status s.

(** The status codes of the status endpoint that carry a status object. *)
Definition status_code_accepted (code : Z) : Prop :=
  code = 200%Z \/ code = 202%Z \/ code = 400%Z \/ code = 404%Z \/ code = 500%Z.

(** A body as an HTTP response carries it: the JSON text, or [undefined]
    when the value has no JSON text. *)
Definition serialized {P : Platform} (v : value) : value :=
  match JSON_stringify v with
  | Some s => VStr s
  | None => VUndefined
  end.

(** The request [getStatus] issues for a status URL that parsed as [u]. *)
Definition status_query (u : URL) : sent_request :=
  mkSent (str_eqb (protocol u) (js "https:"))
    (mkOptions (hostname u) (pathname u ++ search u) (js "GET")
       [(js "Content-Type", VStr (js "application/json"));
        (js "Content-Length", VNum 0)]
       (if str_eqb (port u) [] then None else Some (port u))
       None)
    None.

Definition supported_protocol (u : URL) : Prop :=
  protocol u = js "http:" \/ protocol u = js "https:".

(** Every code unit is an ASCII character. *)
Definition ascii_only (s : jsstring) : Prop :=
  Forall (fun c => (c < 128)%N) s.

(** How a call settles on a scripted answer of the network. *)
Definition answered (a : jsstring + IHttpResponse) : outcome IHttpResponse :=
  match a with
  | inr res => Ok res
  | inl detail => Throw (ErrTransport detail)
  end.

(** Whenever [m] settles it has either left the world as it was, or taken
    exactly one scripted answer and logged exactly one request, without
    reading the clock or sleeping. *)
Definition at_most_one_exchange {A : Type} (m : M A) : Prop :=
  forall w r w',
    m w = Some (r, w') ->
    w' = w \/
    exists q a,
      pending w = a :: pending w' /\
      sent w' = sent w ++ [q] /\
      clock w' = clock w /\
      slept w' = slept w.

(** The character [c] does not occur in [s]. *)
Definition free_of (c : char16) (s : jsstring) : Prop := ~ In c s.

(** The template [t] is a URL for the validator, parses, and is its own
    origin followed by [rest]. *)
Definition rooted {P : Platform} (t rest : jsstring) : Prop :=
  isURL t = true /\
  exists u, parse_url t = Some u /\ t = origin u ++ rest.

(** [r] is not the configuration error of the polling operation. *)
Definition no_config_error {A : Type} (r : outcome A) : Prop :=
  forall a b, r <> Throw (ErrTimeoutConfig a b).

(** Whenever [m] settles it has not thrown the configuration error and the
    request log has only grown. *)
Definition well_behaved {A : Type} (m : M A) : Prop :=
  forall w r w',
    m w = Some (r, w') ->
    no_config_error r /\ exists more, sent w' = sent w ++ more.

(* ================================================================= *)
(** * Properties *)

(** ** Strings *)

Section StringFacts.

Lemma str_eqb_eq (s t : jsstring) : str_eqb s t = true <-> s = t.
Proof.
  revert t; induction s as [|c s IH]; intros [|d t]; simpl; split; intro H;
    try reflexivity; try discriminate.
  - apply andb_true_iff in H as [Hc Hs].
    apply N.eqb_eq in Hc. apply IH in Hs. now subst.
  - injection H as -> ->. apply andb_true_iff; split.
    + apply N.eqb_refl.
    + now apply IH.
Qed.

Lemma str_eqb_refl (s : jsstring) : str_eqb s s = true.
Proof. now apply str_eqb_eq. Qed.

Lemma str_eqb_neq (s t : jsstring) : str_eqb s t = false <-> s <> t.
Proof.
  split.
  - intros H E. apply str_eqb_eq in E. congruence.
  - intro H. destruct (str_eqb s t) eqn:E; [|reflexivity].
    apply str_eqb_eq in E. contradiction.
Qed.

Lemma startsWith_app (p s : jsstring) :
  startsWith p s = true <-> exists b, s = p ++ b.
Proof.
  revert s; induction p as [|c p IH]; intros s; simpl.
  - split; [intros _; now exists s | reflexivity].
  - destruct s as [|d s].
    + split; [discriminate | intros [b Hb]; discriminate].
    + rewrite andb_true_iff, N.eqb_eq, IH. split.
      * intros [-> [b ->]]. now exists b.
      * intros [b Hb]. injection Hb as -> ->. split; [reflexivity | now exists b].
Qed.

Lemma skipn_prefix (p b : jsstring) : skipn (length p) (p ++ b) = b.
Proof. induction p; simpl; auto. Qed.

Lemma split_first_Some (p s a b : jsstring) :
  split_first p s = Some (a, b) -> first_occurrence p s a b.
Proof.
  revert a b; induction s as [|c s IH]; intros a b; simpl.
  - destruct (startsWith p []) eqn:E; [|discriminate].
    intros H; injection H as <- <-.
    apply startsWith_app in E as [b' Hb'].
    split; [|intros; simpl; lia].
    simpl. rewrite Hb' at 1. now rewrite Hb', skipn_prefix.
  - destruct (startsWith p (c :: s)) eqn:E.
    + intros H; injection H as <- <-.
      apply startsWith_app in E as [b' Hb'].
      split; [|intros; simpl; lia].
      simpl. rewrite Hb'. now rewrite skipn_prefix.
    + destruct (split_first p s) as [[a0 b0]|] eqn:Es; [|discriminate].
      intros H; injection H as <- <-.
      destruct (IH _ _ eq_refl) as [Hs Hmin].
      split.
      * simpl. now rewrite <- Hs.
      * intros [|c' a'] b' H'.
        -- simpl in H'. assert (startsWith p (c :: s) = true)
             by (apply startsWith_app; now exists b').
           congruence.
        -- simpl in H'. injection H' as _ H'. apply Hmin in H'. simpl. lia.
Qed.

Lemma split_first_None (p s : jsstring) :
  split_first p s = None -> ~ occurs p s.
Proof.
  induction s as [|c s IH]; simpl.
  - destruct (startsWith p []) eqn:E; [discriminate|].
    intros _ [a [b H]].
    destruct a; [|discriminate]. simpl in H.
    assert (startsWith p [] = true) by (apply startsWith_app; now exists b).
    congruence.
  - destruct (startsWith p (c :: s)) eqn:E; [discriminate|].
    destruct (split_first p s) as [[a0 b0]|] eqn:Es; [discriminate|].
    intros _ [a [b H]].
    destruct a as [|c' a].
    + simpl in H. assert (startsWith p (c :: s) = true)
        by (apply startsWith_app; now exists b).
      congruence.
    + simpl in H. injection H as _ H. apply (IH eq_refl). now exists a, b.
Qed.

Lemma first_occurrence_unique (p s a b a' b' : jsstring) :
  first_occurrence p s a b -> first_occurrence p s a' b' -> a = a' /\ b = b'.
Proof.
  intros [H1 M1] [H2 M2].
  pose proof (M1 _ _ H2). pose proof (M2 _ _ H1).
  assert (L : length a = length a') by lia.
  rewrite H1 in H2.
  assert (Ha : a = a').
  { apply (f_equal (firstn (length a))) in H2.
    rewrite firstn_app, Nat.sub_diag, firstn_all in H2. simpl in H2.
    rewrite L, firstn_app, Nat.sub_diag, firstn_all in H2. simpl in H2.
    now rewrite !app_nil_r in H2. }
  subst a'. split; [reflexivity|].
  apply app_inv_head in H2. now apply app_inv_head in H2.
Qed.

Lemma GetSubstitution_plain (m b a r : jsstring) :
  ~ In dollar r -> GetSubstitution m b a r = r.
Proof.
  induction r as [|c r IH]; simpl; [reflexivity|].
  intros H. destruct (N.eqb c dollar) eqn:E.
  - apply N.eqb_eq in E. exfalso. apply H. now left.
  - f_equal. apply IH. intros Hin. apply H. now right.
Qed.

Lemma replace_first_replaced (s p r : jsstring) :
  ~ In dollar r -> first_replaced p r s (replace s p r).
Proof.
  intros Hr. unfold replace. split.
  - intros a b Hab.
    destruct (split_first p s) as [[a0 b0]|] eqn:E.
    + apply split_first_Some in E.
      destruct (first_occurrence_unique _ _ _ _ _ _ E Hab) as [-> ->].
      now rewrite GetSubstitution_plain.
    + apply split_first_None in E. exfalso. apply E.
      destruct Hab as [Hs _]. now exists a, b.
  - intros Hno.
    destruct (split_first p s) as [[a0 b0]|] eqn:E; [|reflexivity].
    apply split_first_Some in E as [Hs _]. exfalso. apply Hno. now exists a0, b0.
Qed.

Lemma replace_whole (p r : jsstring) : ~ In dollar r -> replace p p r = r.
Proof.
  intros Hr. destruct (replace_first_replaced p p r Hr) as [H _].
  rewrite (H [] []); [now rewrite app_nil_r|].
  split; [now rewrite app_nil_r | intros; simpl; lia].
Qed.

Lemma utf8_length_ascii (s : jsstring) : ascii_only s -> utf8_length s = length s.
Proof.
  induction 1 as [|c s Hc _ IH]; simpl; [reflexivity|].
  apply N.ltb_lt in Hc. now rewrite Hc, IH.
Qed.

End StringFacts.

(* ================================================================= *)
(** ** Management payloads *)

Section PayloadFacts.
Context {P : Platform}.
Variable cd : OrchestrationClientInputData.

Import DurableOrchestrationClient.

Lemma rewrite_link_without_request (request : option TriggerRequest)
    (instanceId link : jsstring) :
  hasValidRequestUrl request = false ->
  rewrite_link cd request instanceId link
  = Ok (replace link (id (managementUrls cd)) instanceId).
Proof. intros H. unfold rewrite_link. now rewrite H. Qed.

Lemma getClientResponseLinks_without_request (request : option TriggerRequest)
    (instanceId : jsstring) :
  hasValidRequestUrl request = false ->
  getClientResponseLinks cd request instanceId
  = Ok (let t := managementUrls cd in
        let f := fun link => replace link (id t) instanceId in
        mkPayload (f (id t)) (f (statusQueryGetUri t)) (f (sendEventPostUri t))
          (f (terminatePostUri t)) (f (rewindPostUri t))
          (f (purgeHistoryDeleteUri t))).
Proof.
  intros H. unfold getClientResponseLinks.
  now rewrite !(rewrite_link_without_request _ _ _ H).
Qed.

(** C2 (as amended). For an instance id without a dollar sign,
    createHttpManagementPayload(id), and createCheckStatusResponse for a
    request that carries no usable URL, build a payload whose [id] is the
    given id and in which each URL is its template with the leftmost
    occurrence of the id placeholder replaced by the id and nothing else
    altered; a template without the placeholder is returned as it is. *)
Theorem management_payload_replaces_first_occurrence
    (request : option TriggerRequest) (instanceId : jsstring) :
  ~ In dollar instanceId ->
  hasValidRequestUrl request = false ->
  exists p,
    createHttpManagementPayload cd instanceId = Ok p /\
    (exists r, createCheckStatusResponse cd request instanceId = Ok r /\
               body r = payload_value p) /\
    id p = instanceId /\
    first_replaced (id (managementUrls cd)) instanceId
      (statusQueryGetUri (managementUrls cd)) (statusQueryGetUri p) /\
    first_replaced (id (managementUrls cd)) instanceId
      (sendEventPostUri (managementUrls cd)) (sendEventPostUri p) /\
    first_replaced (id (managementUrls cd)) instanceId
      (terminatePostUri (managementUrls cd)) (terminatePostUri p) /\
    first_replaced (id (managementUrls cd)) instanceId
      (rewindPostUri (managementUrls cd)) (rewindPostUri p) /\
    first_replaced (id (managementUrls cd)) instanceId
      (purgeHistoryDeleteUri (managementUrls cd)) (purgeHistoryDeleteUri p).
Proof.
  intros Hid Hreq.
  eexists. split.
  { unfold createHttpManagementPayload.
    now rewrite getClientResponseLinks_without_request. }
  split.
  { unfold createCheckStatusResponse.
    rewrite (getClientResponseLinks_without_request _ _ Hreq). simpl.
    eexists. split; reflexivity. }
  simpl. split; [now apply replace_whole|].
  repeat split; try (apply replace_first_replaced; assumption);
    apply (replace_first_replaced _ _ _ Hid).
Qed.

(** A template in which the placeholder occurs exactly once has no
    occurrence left to replace after the first. *)
Lemma first_replaced_single (p i t t' a b : jsstring) :
  t = a ++ p ++ b ->
  (forall a' b', t = a' ++ p ++ b' -> a' = a) ->
  first_replaced p i t t' -> t' = a ++ i ++ b.
Proof.
  intros Ht Huniq [H _]. apply H. split; [assumption|].
  intros a' b' H'. now rewrite (Huniq _ _ H').
Qed.

End PayloadFacts.

(** With a usable request URL and a template that is a URL, the origin of
    the template is replaced by the origin of the request before the id is
    substituted. *)
Lemma rewrite_link_with_request {P : Platform} (cd : OrchestrationClientInputData)
    (request : option TriggerRequest) (instanceId link : jsstring)
    (requestUrl dataUrl : URL) :
  DurableOrchestrationClient.hasValidRequestUrl request = true ->
  isURL link = true ->
  DurableOrchestrationClient.request_URL request = Ok requestUrl ->
  parse_url link = Some dataUrl ->
  DurableOrchestrationClient.rewrite_link cd request instanceId link
  = Ok (replace (replace link (origin dataUrl) (origin requestUrl))
          (id (managementUrls cd)) instanceId).
Proof.
  intros Hv Hu Hr Hd. unfold DurableOrchestrationClient.rewrite_link.
  rewrite Hv, Hu, Hr. simpl.
  unfold DurableOrchestrationClient.new_URL. now rewrite Hd.
Qed.

Lemma management_payload_replaces_first_occurrence_witness :
  exists p,
    DurableOrchestrationClient.createHttpManagementPayload
      (P := Reference.platform) Reference.clientData (js "abc") = Ok p /\
    id p = js "abc".
Proof.
  assert (H1 : ~ In dollar (js "abc")).
  { vm_compute. intros H. repeat (destruct H as [H|H]; [discriminate|]). exact H. }
  destruct (management_payload_replaces_first_occurrence
              (P := Reference.platform) Reference.clientData
              None (js "abc") H1 eq_refl) as [p [Hp [_ [Hid _]]]].
  exists p. split; assumption.
Defined.

(** C2, as stated, fails: with a status-query template that names the id
    placeholder twice, the second occurrence is still in the payload. *)
Lemma management_payload_second_occurrence_kept :
  exists p,
    DurableOrchestrationClient.createHttpManagementPayload
      (P := Reference.platform) Reference.clientData_twice (js "abc") = Ok p /\
    statusQueryGetUri p = js "http://h/instances/abc?again=INSTANCEID" /\
    statusQueryGetUri p
    <> replace_every_occurrence
         (statusQueryGetUri (managementUrls Reference.clientData_twice))
         (id (managementUrls Reference.clientData_twice)) (js "abc").
Proof.
  eexists. split; [vm_compute; reflexivity|].
  split; [vm_compute; reflexivity|].
  vm_compute. discriminate.
Qed.

(* ================================================================= *)
(** ** Status-code mapping of the webhook operations *)

(** Settles the comparisons of a status-code [switch] one after the other. *)
Ltac status_cases :=
  repeat match goal with
         | |- context [(?a =? ?b)%Z] =>
             destruct (Z.eqb_spec a b); simpl; try lia; try tauto
         | |- context [(?a <? ?b)%Z] =>
             destruct (Z.ltb_spec a b); simpl; try lia; try tauto
         end;
  try reflexivity.

(** Runs an operation up to the response of its webhook call. *)
Ltac after_response H :=
  unfold bind; rewrite H; unfold lift.

Section OperationFacts.
Context {P : Platform}.
Variable cd : OrchestrationClientInputData.

Import DurableOrchestrationClient.

(** C3. Whatever the webhook answers to the status query, getStatus
    resolves with the decoded body when the status code is 200, 202, 400,
    404 or 500 and fails with the unrecognized-status error, carrying code
    and body, for every other code. *)
Theorem getStatus_status_codes (instanceId : jsstring)
    (showHistory showHistoryOutput : bool) (w w' : world) (res : IHttpResponse) :
  webhook_get (getStatus_url cd instanceId showHistory showHistoryOutput) w
  = Some (Ok res, w') ->
  (status_code_accepted (status res) ->
   getStatus cd instanceId showHistory showHistoryOutput w
   = Some (Ok (body res), w')) /\
  (~ status_code_accepted (status res) ->
   getStatus cd instanceId showHistory showHistoryOutput w
   = Some (Throw (ErrUnrecognizedStatus (status res) (body res)), w')).
Proof.
  intros H. unfold getStatus, status_code_accepted. after_response H.
  unfold getStatus_result. split; intros Hc; status_cases.
Qed.

(** C6. raiseEvent with an empty event name fails at once and leaves the
    world as it was (no request is sent). Otherwise, whatever the webhook
    answers, it resolves with no value on 202 and on 410, fails with the
    instance-not-found error on 404, with the unsupported-content error on
    400, and with the unrecognized-status error on every other code. *)
Theorem raiseEvent_outcomes (instanceId eventName : jsstring) (eventData : value)
    (taskHubName' connectionName : option jsstring) (w : world) :
  (eventName = [] ->
   raiseEvent cd instanceId eventName eventData taskHubName' connectionName w
   = Some (Throw ErrEventNameInvalid, w)) /\
  (eventName <> [] ->
   forall res w',
     webhook_post (raiseEvent_url cd instanceId eventName taskHubName' connectionName)
       eventData w = Some (Ok res, w') ->
     let result :=
       raiseEvent cd instanceId eventName eventData taskHubName' connectionName w in
     (status res = 202%Z \/ status res = 410%Z -> result = Some (Ok tt, w')) /\
     (status res = 404%Z ->
      result = Some (Throw (ErrInstanceNotFound instanceId), w')) /\
     (status res = 400%Z -> result = Some (Throw ErrUnsupportedContent, w')) /\
     (status res <> 202%Z -> status res <> 410%Z -> status res <> 404%Z ->
      status res <> 400%Z ->
      result = Some (Throw (ErrUnrecognizedStatusCode (status res) (body res)), w'))).
Proof.
  split.
  - intros ->. reflexivity.
  - intros Hname res w' H. apply str_eqb_neq in Hname.
    unfold raiseEvent. rewrite Hname. after_response H.
    unfold raiseEvent_result. repeat split; intros; status_cases.
Qed.

(** The status dispatch of startNew, for the responses the transport
    resolves with. startNew with an empty function name fails at once. Otherwise,
    whatever the webhook answers, a status code above 202 makes it fail with
    the response body as the error message; a status code of at most 202
    makes it resolve with the [id] property of a truthy (non-empty) body,
    and with no value when the body is falsy (empty). *)
Theorem startNew_outcomes (orchestratorFunctionName : jsstring)
    (instanceId : option jsstring) (input : value) (w : world) :
  (orchestratorFunctionName = [] ->
   startNew cd orchestratorFunctionName instanceId input w
   = Some (Throw ErrOrchestratorNameInvalid, w)) /\
  (orchestratorFunctionName <> [] ->
   forall res w',
     webhook_post (startNew_url cd orchestratorFunctionName instanceId) input w
     = Some (Ok res, w') ->
     let result := startNew cd orchestratorFunctionName instanceId input w in
     ((202 < status res)%Z -> result = Some (Throw (ErrBody (body res)), w')) /\
     ((status res <= 202)%Z -> truthy (body res) = true ->
      result = Some (Ok (get_prop (body res) (js "id")), w')) /\
     ((status res <= 202)%Z -> truthy (body res) = false ->
      result = Some (Ok VUndefined, w'))).
Proof.
  split.
  - intros ->. reflexivity.
  - intros Hname res w' H. apply str_eqb_neq in Hname.
    unfold startNew. rewrite Hname. after_response H.
    unfold startNew_result.
    repeat split; intros; status_cases;
      match goal with Ht : truthy _ = _ |- _ => now rewrite Ht end.
Qed.

(** C8. Whatever the webhook answers, terminate and rewind both resolve on
    202, both fail with the instance-not-found error on 404 and both fail
    with the unrecognized-status error on every code other than 202, 404
    and 410; on 410 terminate resolves and rewind fails with the error that
    rewind is only supported on failed instances. *)
Theorem terminate_rewind_outcomes (instanceId reason : jsstring) (w : world) :
  (forall res w',
     webhook_post (terminate_url cd instanceId reason) VUndefined w
     = Some (Ok res, w') ->
     let result := terminate cd instanceId reason w in
     (status res = 202%Z -> result = Some (Ok tt, w')) /\
     (status res = 404%Z ->
      result = Some (Throw (ErrInstanceNotFound instanceId), w')) /\
     (status res = 410%Z -> result = Some (Ok tt, w')) /\
     (status res <> 202%Z -> status res <> 404%Z -> status res <> 410%Z ->
      result = Some (Throw (ErrUnrecognizedStatusCode (status res) (body res)), w')))
  /\
  (forall res w',
     webhook_post (rewind_url cd instanceId reason) VUndefined w
     = Some (Ok res, w') ->
     let result := rewind cd instanceId reason w in
     (status res = 202%Z -> result = Some (Ok tt, w')) /\
     (status res = 404%Z ->
      result = Some (Throw (ErrInstanceNotFound instanceId), w')) /\
     (status res = 410%Z -> result = Some (Throw ErrRewindUnsupported, w')) /\
     (status res <> 202%Z -> status res <> 404%Z -> status res <> 410%Z ->
      result = Some (Throw (ErrUnrecognizedStatusCode (status res) (body res)), w')))
  /\
  (forall res, status res <> 410%Z ->
     terminate_result instanceId res = rewind_result instanceId res).
Proof.
  split; [|split].
  - intros res w' H. unfold terminate. after_response H.
    unfold terminate_result. repeat split; intros; status_cases.
  - intros res w' H. unfold rewind. after_response H.
    unfold rewind_result. repeat split; intros; status_cases.
  - intros res H. unfold terminate_result, rewind_result. status_cases.
Qed.

End OperationFacts.

(* ================================================================= *)
(** ** startNew over the transport that decodes *)

Section WireFacts.
Context {P : Platform} {D : Decoder}.
Variable cd : OrchestrationClientInputData.

(** A body without any text does not decode when the empty text is not
    JSON. *)
Lemma receive_empty_body (res : Wire.IncomingMessage) :
  JSON_parse [] = None ->
  Forall (fun chunk => chunk = []) (Wire.data res) ->
  Wire.receive res = None.
Proof.
  intros Hp Hd. unfold Wire.receive.
  assert (E : fold_left (fun body chunk => body ++ chunk) (Wire.data res) [] = []).
  { induction Hd as [|c l -> _ IH]; simpl; [reflexivity | exact IH]. }
  now rewrite E, Hp.
Qed.

(** When the body decodes, startNew over this transport settles as
    [DurableOrchestrationClient.startNew] does on the decoded response, with
    the same requests sent. *)
Lemma wire_startNew_decoded (name : jsstring) (instanceId : option jsstring)
    (input : value) (w : Wire.wire_world) (msg : Wire.IncomingMessage)
    (res : IHttpResponse) (rest : list (jsstring + Wire.IncomingMessage)) :
  Wire.incoming w = inr msg :: rest ->
  Wire.receive msg = Some res ->
  exists r w1 w2,
    Wire.startNew cd name instanceId input w = Wire.Settled r w1 /\
    DurableOrchestrationClient.startNew cd name instanceId input
      (mkWorld [inr res] (Wire.wire_sent w) [] []) = Some (r, w2) /\
    Wire.wire_sent w1 = sent w2.
Proof.
  intros Hw Hr.
  unfold Wire.startNew, DurableOrchestrationClient.startNew.
  destruct (str_eqb name []).
  { eexists. eexists. eexists. repeat split. }
  unfold Wire.webhook_post, DurableOrchestrationClient.webhook_post,
    Wire.bind, bind, Wire.lift, lift, DurableOrchestrationClient.new_URL.
  destruct (parse_url _) as [u|].
  2: { eexists. eexists. eexists. repeat split. }
  unfold Wire.post, WebhookClient.post, Wire.callWebhook, WebhookClient.callWebhook,
    Wire.bind, bind, Wire.lift, lift.
  destruct (WebhookClient.build_request u (js "POST") input None) as [q|e].
  2: { eexists. eexists. eexists. repeat split. }
  unfold Wire.exchange, exchange. rewrite Hw, Hr. simpl.
  eexists. eexists. eexists. repeat split.
Qed.

(** C7. startNew does not resolve with no id on a response without a body:
    for a non-empty function name and a request that is sent, whatever the
    status code, a response whose body has no text makes [JSON.parse] throw
    in the [end] handler of the transport, and the promise of startNew is
    never settled; the empty-body branch of startNew is not reached. The
    decoder is any for which the empty text is not JSON. *)
Theorem startNew_never_settles_on_empty_body (name : jsstring)
    (instanceId : option jsstring) (input : value) (u : URL) (q : sent_request)
    (w : Wire.wire_world) (msg : Wire.IncomingMessage)
    (rest : list (jsstring + Wire.IncomingMessage)) :
  JSON_parse [] = None ->
  name <> [] ->
  parse_url (DurableOrchestrationClient.startNew_url cd name instanceId) = Some u ->
  WebhookClient.build_request u (js "POST") input None = Ok q ->
  Wire.incoming w = inr msg :: rest ->
  Forall (fun chunk => chunk = []) (Wire.data msg) ->
  Wire.startNew cd name instanceId input w
  = Wire.NeverSettles (Wire.mkWire rest (Wire.wire_sent w ++ [q])).
Proof.
  intros Hp Hn Hu Hq Hw Hd. apply str_eqb_neq in Hn.
  unfold Wire.startNew. rewrite Hn.
  unfold Wire.webhook_post, Wire.bind, Wire.lift,
    DurableOrchestrationClient.new_URL.
  rewrite Hu. unfold Wire.post, Wire.callWebhook, Wire.bind, Wire.lift.
  rewrite Hq. unfold Wire.exchange. rewrite Hw.
  now rewrite (receive_empty_body msg Hp Hd).
Qed.

End WireFacts.

(* ================================================================= *)
(** ** The polling loop *)

Lemma Qltb_lt (x y : Q) : Qltb x y = true <-> x < y.
Proof.
  unfold Qltb. rewrite Qlt_alt.
  destruct (x ?= y); split; intro H; congruence.
Qed.

Lemma Qltb_ge (x y : Q) : Qltb x y = false <-> y <= x.
Proof.
  split; intro H.
  - apply Qnot_lt_le. intro L. apply Qltb_lt in L. congruence.
  - destruct (Qltb x y) eqn:E; [|reflexivity].
    apply Qltb_lt in E. exfalso. exact (Qlt_not_le _ _ E H).
Qed.

Section PollingFacts.
Context {P : Platform}.
Variable cd : OrchestrationClientInputData.

Import DurableOrchestrationClient.

Lemma terminal_response_nonterminal (v : value) :
  nonterminal v -> terminal_response v = None.
Proof.
  intros H. unfold terminal_response.
  destruct (truthy v); [|reflexivity].
  destruct v as [| |b|z|s|items|fields]; try reflexivity.
  simpl. destruct (lookup (js "runtimeStatus") fields) as [x|] eqn:L; [|reflexivity].
  destruct x as [| |b|z|s|items|fields']; try reflexivity.
  assert (T : ~ terminal_status s) by (apply H; now exists fields).
  unfold terminal_status in T. simpl.
  destruct (str_eqb s OrchestrationRuntimeStatus.Completed) eqn:E1;
    [apply str_eqb_eq in E1; tauto|].
  destruct (str_eqb s OrchestrationRuntimeStatus.Canceled) eqn:E2;
    [apply str_eqb_eq in E2; tauto|].
  destruct (str_eqb s OrchestrationRuntimeStatus.Terminated) eqn:E3;
    [apply str_eqb_eq in E3; tauto|].
  destruct (str_eqb s OrchestrationRuntimeStatus.Failed) eqn:E4;
    [apply str_eqb_eq in E4; tauto|].
  reflexivity.
Qed.

Lemma terminal_response_Completed (v : value) :
  runtimeStatus_is v OrchestrationRuntimeStatus.Completed ->
  terminal_response v = Some (createHttpResponse 200 (output_of v)).
Proof.
  intros [fields [-> L]]. unfold terminal_response. simpl. rewrite L. reflexivity.
Qed.

Lemma terminal_response_Canceled_Terminated (v : value) :
  runtimeStatus_is v OrchestrationRuntimeStatus.Canceled \/
  runtimeStatus_is v OrchestrationRuntimeStatus.Terminated ->
  terminal_response v = Some (createHttpResponse 200 v).
Proof.
  intros [[fields [-> L]]|[fields [-> L]]];
    unfold terminal_response; simpl; rewrite L; reflexivity.
Qed.

Lemma terminal_response_Failed (v : value) :
  runtimeStatus_is v OrchestrationRuntimeStatus.Failed ->
  terminal_response v = Some (createHttpResponse 500 v).
Proof.
  intros [fields [-> L]]. unfold terminal_response. simpl. rewrite L. reflexivity.
Qed.

(** A status query whose URL parses and whose scheme is supported takes the
    next scripted answer and logs one request. *)
Lemma webhook_get_answer (url : jsstring) (u : URL) (w : world)
    (answer : jsstring + IHttpResponse) (rest : list (jsstring + IHttpResponse)) :
  parse_url url = Some u ->
  supported_protocol u ->
  pending w = answer :: rest ->
  webhook_get url w
  = Some (match answer with
          | inr res => Ok res
          | inl detail => Throw (ErrTransport detail)
          end,
          mkWorld rest (sent w ++ [status_query u]) (clock w) (slept w)).
Proof.
  intros Hu Hp Hw.
  unfold webhook_get, bind, lift, new_URL. rewrite Hu.
  unfold WebhookClient.get, WebhookClient.callWebhook, bind, lift,
    WebhookClient.build_request, status_query. simpl.
  destruct Hp as [Hp|Hp]; rewrite Hp; simpl;
    unfold exchange; rewrite Hw;
    destruct answer; destruct (JSON_stringify VUndefined); reflexivity.
Qed.

Lemma getStatus_answer (instanceId : jsstring) (u : URL) (w : world)
    (res : IHttpResponse) (rest : list (jsstring + IHttpResponse)) :
  parse_url (getStatus_url cd instanceId false false) = Some u ->
  supported_protocol u ->
  pending w = inr res :: rest ->
  status_code_accepted (status res) ->
  getStatus cd instanceId false false w
  = Some (Ok (body res),
          mkWorld rest (sent w ++ [status_query u]) (clock w) (slept w)).
Proof.
  intros Hu Hp Hw Hc.
  unfold getStatus, bind.
  rewrite (webhook_get_answer _ _ _ _ _ Hu Hp Hw). unfold lift, getStatus_result.
  unfold status_code_accepted in Hc. status_cases.
Qed.

End PollingFacts.

Section WellBehaved.
Context {P : Platform}.

Import DurableOrchestrationClient.

Lemma no_config_error_Ok {A : Type} (a : A) : no_config_error (Ok a).
Proof. intros x y H. discriminate. Qed.

Lemma no_config_error_obind {A B : Type} (o : outcome A) (f : A -> outcome B) :
  no_config_error o -> (forall a, no_config_error (f a)) ->
  no_config_error (obind o f).
Proof.
  intros Ho Hf. destruct o as [a|e]; simpl; [apply Hf|].
  intros x y H. apply (Ho x y). congruence.
Qed.

Lemma well_behaved_ret {A : Type} (a : A) : well_behaved (ret a).
Proof.
  intros w r w' H. unfold ret in H. injection H as <- <-.
  split; [apply no_config_error_Ok|].
  exists []. now rewrite app_nil_r.
Qed.

Lemma well_behaved_lift {A : Type} (o : outcome A) :
  no_config_error o -> well_behaved (lift o).
Proof.
  intros Ho w r w' H. unfold lift in H. injection H as <- <-.
  split; [assumption|].
  exists []. now rewrite app_nil_r.
Qed.

Lemma well_behaved_bind {A B : Type} (m : M A) (f : A -> M B) :
  well_behaved m -> (forall a, well_behaved (f a)) -> well_behaved (bind m f).
Proof.
  intros Hm Hf w r w' H. unfold bind in H.
  destruct (m w) as [[[a|e] w1]|] eqn:E; [| |discriminate].
  - destruct (Hm _ _ _ E) as [_ [m1 S1]].
    destruct (Hf a _ _ _ H) as [Hr [m2 S2]].
    split; [assumption|]. exists (m1 ++ m2). now rewrite S2, S1, app_assoc.
  - injection H as <- <-.
    destruct (Hm _ _ _ E) as [Hr [m1 S1]].
    split; [|now exists m1].
    intros x y Hx. apply (Hr x y). congruence.
Qed.

Lemma well_behaved_exchange (r : sent_request) : well_behaved (exchange r).
Proof.
  intros w o w' H. unfold exchange in H.
  destruct (pending w) as [|answer rest]; [discriminate|].
  destruct answer; injection H as <- <-; simpl;
    (split; [intros x y Hx; discriminate | now exists [r]]).
Qed.

Lemma well_behaved_hrElapsed : well_behaved hrElapsed.
Proof.
  intros w o w' H. unfold hrElapsed in H.
  destruct (clock w); [discriminate|]. injection H as <- <-. simpl.
  split; [apply no_config_error_Ok | exists []; now rewrite app_nil_r].
Qed.

Lemma well_behaved_sleep (ms : Q) : well_behaved (sleep ms).
Proof.
  intros w o w' H. unfold sleep in H. injection H as <- <-. simpl.
  split; [apply no_config_error_Ok | exists []; now rewrite app_nil_r].
Qed.

Lemma no_config_error_new_URL (s : jsstring) : no_config_error (new_URL s).
Proof. unfold new_URL. destruct (parse_url s); intros x y H; discriminate. Qed.

Lemma no_config_error_request_URL (request : option TriggerRequest) :
  no_config_error (request_URL request).
Proof.
  unfold request_URL.
  destruct request as [[[u|] [[h|]|]]|]; simpl;
    try destruct (negb (str_eqb u []));
    try apply no_config_error_new_URL; intros x y H; discriminate.
Qed.

Lemma no_config_error_rewrite_link (cd : OrchestrationClientInputData)
    (request : option TriggerRequest) (instanceId link : jsstring) :
  no_config_error (rewrite_link cd request instanceId link).
Proof.
  unfold rewrite_link. apply no_config_error_obind.
  - destruct (hasValidRequestUrl request && isURL link);
      [|apply no_config_error_Ok].
    apply no_config_error_obind; [apply no_config_error_request_URL|].
    intros requestUrl. apply no_config_error_obind;
      [apply no_config_error_new_URL | intros; apply no_config_error_Ok].
  - intros. apply no_config_error_Ok.
Qed.

Lemma no_config_error_createCheckStatusResponse (cd : OrchestrationClientInputData)
    (request : option TriggerRequest) (instanceId : jsstring) :
  no_config_error (createCheckStatusResponse cd request instanceId).
Proof.
  unfold createCheckStatusResponse, getClientResponseLinks.
  repeat (apply no_config_error_obind;
          [try apply no_config_error_rewrite_link | intros]);
    apply no_config_error_Ok.
Qed.

Lemma no_config_error_build_request (url : URL) (httpMethod : jsstring)
    (input : value) (timeoutInMilliseconds : option Q) :
  no_config_error
    (WebhookClient.build_request url httpMethod input timeoutInMilliseconds).
Proof.
  unfold WebhookClient.build_request. apply no_config_error_obind.
  - destruct input; try (intros x y H; discriminate);
      destruct (JSON_stringify _); intros x y H; discriminate.
  - intros c. apply no_config_error_obind; [|intros; apply no_config_error_Ok].
    destruct (str_eqb (protocol url) (js "http:"));
      [|destruct (str_eqb (protocol url) (js "https:"))];
      intros x y H; discriminate.
Qed.

Lemma well_behaved_webhook_get (url : jsstring) : well_behaved (webhook_get url).
Proof.
  unfold webhook_get. apply well_behaved_bind.
  - apply well_behaved_lift, no_config_error_new_URL.
  - intros u. unfold WebhookClient.get, WebhookClient.callWebhook.
    apply well_behaved_bind.
    + apply well_behaved_lift, no_config_error_build_request.
    + intros r. apply well_behaved_exchange.
Qed.

Lemma well_behaved_getStatus (cd : OrchestrationClientInputData)
    (instanceId : jsstring) (showHistory showHistoryOutput : bool) :
  well_behaved (getStatus cd instanceId showHistory showHistoryOutput).
Proof.
  unfold getStatus. apply well_behaved_bind; [apply well_behaved_webhook_get|].
  intros res. apply well_behaved_lift. unfold getStatus_result.
  destruct (_ || _); intros x y H; discriminate.
Qed.

End WellBehaved.

(** The part of a polling iteration that follows the status query. *)
Ltac after_status_well_behaved :=
  let st := fresh "st" in
  let e := fresh "e" in
  let r := fresh "r" in
  intros st; destruct (DurableOrchestrationClient.terminal_response st);
    [apply well_behaved_ret|];
  apply well_behaved_bind; [apply well_behaved_hrElapsed|];
  intros e;
  match goal with
  | |- context [Qltb e ?t] => destruct (Qltb e t)
  end;
  [ apply well_behaved_bind; [apply well_behaved_sleep|];
    intros _; apply well_behaved_ret
  | apply well_behaved_bind;
    [ apply well_behaved_lift, no_config_error_createCheckStatusResponse
    | intros r; apply well_behaved_ret ] ].

Section WellBehavedLoop.
Context {P : Platform}.

Import DurableOrchestrationClient.

Lemma well_behaved_poll_iteration (cd : OrchestrationClientInputData)
    (request : option TriggerRequest) (instanceId : jsstring)
    (timeoutInMilliseconds retryIntervalInMilliseconds : Q) :
  well_behaved (poll_iteration cd request instanceId timeoutInMilliseconds
                  retryIntervalInMilliseconds).
Proof.
  unfold poll_iteration.
  apply well_behaved_bind; [apply well_behaved_getStatus|].
  after_status_well_behaved.
Qed.

Lemma well_behaved_poll (cd : OrchestrationClientInputData) (fuel : nat)
    (request : option TriggerRequest) (instanceId : jsstring)
    (timeoutInMilliseconds retryIntervalInMilliseconds : Q) :
  well_behaved (poll cd fuel request instanceId timeoutInMilliseconds
                  retryIntervalInMilliseconds).
Proof.
  induction fuel as [|fuel IH]; simpl.
  - intros w r w' H. discriminate.
  - apply well_behaved_bind; [apply well_behaved_poll_iteration|].
    intros [res|]; [apply well_behaved_ret | exact IH].
Qed.

(** If [m] logs the request [q] first, so does [m] followed by a
    well-behaved continuation. *)
Lemma bind_logs_first {A B : Type} (m : M A) (f : A -> M B) (w : world)
    (q : sent_request) :
  (forall r w', m w = Some (r, w') -> exists more, sent w' = sent w ++ q :: more) ->
  (forall a, well_behaved (f a)) ->
  forall r w', bind m f w = Some (r, w') ->
               exists more, sent w' = sent w ++ q :: more.
Proof.
  intros Hm Hf r w' H. unfold bind in H.
  destruct (m w) as [[[a|e] w1]|] eqn:E; [| |discriminate].
  - destruct (Hm _ _ eq_refl) as [m1 S1].
    destruct (Hf a _ _ _ H) as [_ [m2 S2]].
    exists (m1 ++ m2). rewrite S2, S1, <- app_assoc. reflexivity.
  - injection H as <- <-. exact (Hm _ _ eq_refl).
Qed.

End WellBehavedLoop.

Section WaitFacts.
Context {P : Platform}.
Variable cd : OrchestrationClientInputData.
Variable request : option TriggerRequest.
Variable instanceId : jsstring.
Variables timeoutInMilliseconds retryIntervalInMilliseconds : Q.

Import DurableOrchestrationClient.

Local Abbreviation loop fuel :=
  (poll cd fuel request instanceId timeoutInMilliseconds
     retryIntervalInMilliseconds) (only parsing).

(** What an answer must be for the loop to go round once more: an accepted
    status code, no terminal status, and an elapsed time below the timeout. *)
Local Abbreviation keeps_polling :=
  (fun x : IHttpResponse * Q =>
     status_code_accepted (status (fst x)) /\
     nonterminal (body (fst x)) /\
     snd x < timeoutInMilliseconds) (only parsing).

Lemma poll_returns_terminal (fuel : nat) (w w1 : world) (st : value)
    (r : IHttpResponse) :
  getStatus cd instanceId false false w = Some (Ok st, w1) ->
  terminal_response st = Some r ->
  loop (S fuel) w = Some (Ok r, w1).
Proof.
  intros Hs Ht. simpl. unfold poll_iteration, bind.
  rewrite Hs, Ht. reflexivity.
Qed.

Lemma poll_repeats (fuel : nat) (w w1 : world) (st : value) (elapsed : Q)
    (later : list Q) :
  getStatus cd instanceId false false w = Some (Ok st, w1) ->
  terminal_response st = None ->
  clock w1 = elapsed :: later ->
  elapsed < timeoutInMilliseconds ->
  loop (S fuel) w
  = loop fuel
      (mkWorld (pending w1) (sent w1) later
         (slept w1 ++ [sleep_time timeoutInMilliseconds retryIntervalInMilliseconds
                         elapsed])).
Proof.
  intros Hs Ht Hc He. simpl. unfold poll_iteration, bind.
  rewrite Hs, Ht. unfold hrElapsed. rewrite Hc.
  apply Qltb_lt in He. rewrite He. reflexivity.
Qed.

Lemma poll_falls_back (fuel : nat) (w w1 : world) (st : value) (elapsed : Q)
    (later : list Q) :
  getStatus cd instanceId false false w = Some (Ok st, w1) ->
  terminal_response st = None ->
  clock w1 = elapsed :: later ->
  timeoutInMilliseconds <= elapsed ->
  loop (S fuel) w
  = Some (createCheckStatusResponse cd request instanceId,
          mkWorld (pending w1) (sent w1) later (slept w1)).
Proof.
  intros Hs Ht Hc He. simpl. unfold poll_iteration, bind.
  rewrite Hs, Ht. unfold hrElapsed. rewrite Hc.
  apply Qltb_ge in He. rewrite He. unfold lift.
  destruct (createCheckStatusResponse cd request instanceId); reflexivity.
Qed.

(** The loop runs through a prefix of answers that keep it polling: one
    status query and one sleep for each. *)
Lemma poll_through_running (u : URL) :
  parse_url (getStatus_url cd instanceId false false) = Some u ->
  supported_protocol u ->
  forall (running : list (IHttpResponse * Q)) (fuel : nat) (w : world)
         (rest : list (jsstring + IHttpResponse)) (later : list Q),
    pending w = map (fun x => inr (fst x)) running ++ rest ->
    clock w = map snd running ++ later ->
    Forall keeps_polling running ->
    loop (length running + fuel) w
    = loop fuel
        (mkWorld rest
           (sent w ++ repeat (status_query u) (length running))
           later
           (slept w ++
            map (fun x => sleep_time timeoutInMilliseconds
                            retryIntervalInMilliseconds (snd x)) running)).
Proof.
  intros Hu Hp. induction running as [|[res e] running IH];
    intros fuel w rest later Hw Hc Hall.
  - simpl in *. rewrite !app_nil_r. destruct w; simpl in *. now subst.
  - simpl in Hw, Hc. inversion Hall as [|x l [Hacc [Hnt Hlt]] Hall']; subst.
    simpl in Hacc, Hnt, Hlt.
    change (length ((res, e) :: running) + fuel)%nat
      with (S (length running + fuel)).
    rewrite (poll_repeats _ _ _ _ _ _
               (getStatus_answer cd instanceId u w res _ Hu Hp Hw Hacc)
               (terminal_response_nonterminal _ Hnt) Hc Hlt).
    rewrite (IH fuel _ rest later); [|reflexivity|reflexivity|exact Hall'].
    simpl. rewrite <- !app_assoc. reflexivity.
Qed.

(** C1. Let the status endpoint answer a run of statuses that are not
    terminal, each read before the timeout has elapsed, and then [last].
    The polling operation returns HTTP 200 with the serialized output as body
    when [last] is Completed, HTTP 200 with the serialized status object
    when it is Canceled or Terminated, and HTTP 500 with the serialized
    status object when it is Failed. When [last] is not terminal either and
    the elapsed time read after it has reached the timeout, the operation
    returns what createCheckStatusResponse(request, instanceId) returns, an
    HTTP 202 response whose body is the management payload. *)
Theorem wait_for_completion_outcomes (u : URL)
    (running : list (IHttpResponse * Q)) (last : IHttpResponse)
    (rest : list (jsstring + IHttpResponse)) (later : list Q) (w : world) :
  retryIntervalInMilliseconds <= timeoutInMilliseconds ->
  parse_url (getStatus_url cd instanceId false false) = Some u ->
  supported_protocol u ->
  pending w = map (fun x => inr (fst x)) running ++ inr last :: rest ->
  clock w = map snd running ++ later ->
  Forall (fun x => status_code_accepted (status (fst x)) /\
                   nonterminal (body (fst x)) /\
                   snd x < timeoutInMilliseconds) running ->
  status_code_accepted (status last) ->
  let result :=
    option_map fst
      (waitForCompletionOrCreateCheckStatusResponse cd request instanceId
         timeoutInMilliseconds retryIntervalInMilliseconds w) in
  (runtimeStatus_is (body last) OrchestrationRuntimeStatus.Completed ->
   exists r, result = Some (Ok r) /\ status r = 200%Z /\
             body r = serialized (output_of (body last))) /\
  (runtimeStatus_is (body last) OrchestrationRuntimeStatus.Canceled \/
   runtimeStatus_is (body last) OrchestrationRuntimeStatus.Terminated ->
   exists r, result = Some (Ok r) /\ status r = 200%Z /\
             body r = serialized (body last)) /\
  (runtimeStatus_is (body last) OrchestrationRuntimeStatus.Failed ->
   exists r, result = Some (Ok r) /\ status r = 500%Z /\
             body r = serialized (body last)) /\
  (nonterminal (body last) ->
   forall elapsed later',
     later = elapsed :: later' ->
     timeoutInMilliseconds <= elapsed ->
     result = Some (createCheckStatusResponse cd request instanceId) /\
     forall r, createCheckStatusResponse cd request instanceId = Ok r ->
               status r = 202%Z /\
               exists p, getClientResponseLinks cd request instanceId = Ok p /\
                         body r = payload_value p).
Proof.
  intros Hle Hu Hp Hw Hc Hall Hacc result.
  assert (Run : waitForCompletionOrCreateCheckStatusResponse cd request instanceId
                  timeoutInMilliseconds retryIntervalInMilliseconds w
                = loop (S (S (length rest)))
                    (mkWorld (inr last :: rest)
                       (sent w ++ repeat (status_query u) (length running))
                       later
                       (slept w ++
                        map (fun x => sleep_time timeoutInMilliseconds
                                        retryIntervalInMilliseconds (snd x))
                          running))).
  { unfold waitForCompletionOrCreateCheckStatusResponse.
    apply Qltb_ge in Hle. rewrite Hle.
    replace (S (length (pending w)))
      with (length running + S (S (length rest)))%nat
      by (rewrite Hw, length_app, length_map; simpl; lia).
    exact (poll_through_running u Hu Hp running _ w _ later Hw Hc Hall). }
  set (w0 := mkWorld (inr last :: rest)
               (sent w ++ repeat (status_query u) (length running)) later
               (slept w ++
                map (fun x => sleep_time timeoutInMilliseconds
                                retryIntervalInMilliseconds (snd x)) running))
    in Run.
  pose proof (getStatus_answer cd instanceId u w0 last rest Hu Hp eq_refl Hacc)
    as Hs.
  split; [|split; [|split]].
  - intros Hst. exists (createHttpResponse 200 (output_of (body last))).
    split; [|split; reflexivity].
    unfold result. rewrite Run.
    rewrite (poll_returns_terminal _ _ _ _ _ Hs (terminal_response_Completed _ Hst)).
    reflexivity.
  - intros Hst. exists (createHttpResponse 200 (body last)).
    split; [|split; reflexivity].
    unfold result. rewrite Run.
    rewrite (poll_returns_terminal _ _ _ _ _ Hs
               (terminal_response_Canceled_Terminated _ Hst)).
    reflexivity.
  - intros Hst. exists (createHttpResponse 500 (body last)).
    split; [|split; reflexivity].
    unfold result. rewrite Run.
    rewrite (poll_returns_terminal _ _ _ _ _ Hs (terminal_response_Failed _ Hst)).
    reflexivity.
  - intros Hnt elapsed later' Hl He. split.
    + unfold result. rewrite Run.
      assert (Hc0 : clock w0 = elapsed :: later') by exact Hl.
      rewrite (poll_falls_back _ _ _ _ _ _ Hs
                 (terminal_response_nonterminal _ Hnt) Hc0 He).
      reflexivity.
    + intros r Hr. unfold createCheckStatusResponse in Hr.
      destruct (getClientResponseLinks cd request instanceId) as [p|];
        simpl in Hr; [|discriminate].
      injection Hr as <-. split; [reflexivity | now exists p].
Qed.

Lemma getStatus_settles_on (u : URL) (w : world) (a : jsstring + IHttpResponse)
    (rest : list (jsstring + IHttpResponse)) :
  parse_url (getStatus_url cd instanceId false false) = Some u ->
  supported_protocol u ->
  pending w = a :: rest ->
  getStatus cd instanceId false false w
  = Some (match a with
          | inr res => getStatus_result res
          | inl detail => Throw (ErrTransport detail)
          end,
          mkWorld rest (sent w ++ [status_query u]) (clock w) (slept w)).
Proof.
  intros Hu Hp Hw. unfold getStatus, bind.
  rewrite (webhook_get_answer _ _ _ _ _ Hu Hp Hw). destruct a; reflexivity.
Qed.

Lemma poll_rejects (fuel : nat) (w w1 : world) (e : error) :
  getStatus cd instanceId false false w = Some (Throw e, w1) ->
  loop (S fuel) w = Some (Throw e, w1).
Proof.
  intros Hs. simpl. unfold poll_iteration, bind. now rewrite Hs.
Qed.

(** C4. When the retry interval exceeds the timeout, the polling operation
    fails at once with the configuration error and leaves the world as it
    was: no status query is sent. When it does not, the check passes and
    polling begins: in every world where the status URL is well-formed and
    the endpoint has an answer, the operation sends the status query first
    and goes on from that answer. A connection error or an unrecognized
    status code is rejected after that one query, a terminal status is
    returned after that one query, and for a status that is not terminal
    the clock is read, after which the operation returns the check-status
    response or sleeps and polls again; in no case does it fail with the
    configuration error. *)
Theorem wait_precondition (w : world) :
  (timeoutInMilliseconds < retryIntervalInMilliseconds ->
   waitForCompletionOrCreateCheckStatusResponse cd request instanceId
     timeoutInMilliseconds retryIntervalInMilliseconds w
   = Some (Throw (ErrTimeoutConfig timeoutInMilliseconds
                    retryIntervalInMilliseconds), w)) /\
  (retryIntervalInMilliseconds <= timeoutInMilliseconds ->
   (forall r w',
      waitForCompletionOrCreateCheckStatusResponse cd request instanceId
        timeoutInMilliseconds retryIntervalInMilliseconds w = Some (r, w') ->
      no_config_error r) /\
   forall u a rest,
     parse_url (getStatus_url cd instanceId false false) = Some u ->
     supported_protocol u ->
     pending w = a :: rest ->
     let queried := sent w ++ [status_query u] in
     let wait :=
       waitForCompletionOrCreateCheckStatusResponse cd request instanceId
         timeoutInMilliseconds retryIntervalInMilliseconds w in
     (forall detail,
        a = inl detail ->
        wait = Some (Throw (ErrTransport detail),
                     mkWorld rest queried (clock w) (slept w))) /\
     (forall res,
        a = inr res ->
        ~ status_code_accepted (status res) ->
        wait = Some (Throw (ErrUnrecognizedStatus (status res) (body res)),
                     mkWorld rest queried (clock w) (slept w))) /\
     (forall res r,
        a = inr res ->
        status_code_accepted (status res) ->
        terminal_response (body res) = Some r ->
        wait = Some (Ok r, mkWorld rest queried (clock w) (slept w))) /\
     (forall res elapsed later,
        a = inr res ->
        status_code_accepted (status res) ->
        terminal_response (body res) = None ->
        clock w = elapsed :: later ->
        (timeoutInMilliseconds <= elapsed ->
         wait = Some (createCheckStatusResponse cd request instanceId,
                      mkWorld rest queried later (slept w))) /\
        (elapsed < timeoutInMilliseconds ->
         exists d,
           wait = loop (S (length rest))
                    (mkWorld rest queried later (slept w ++ [d]))))).
Proof.
  unfold waitForCompletionOrCreateCheckStatusResponse. split.
  - intros H. apply Qltb_lt in H. rewrite H. reflexivity.
  - intros H. apply Qltb_ge in H. rewrite H. split.
    { intros r w' Hrun.
      exact (proj1 (well_behaved_poll cd _ request instanceId
                      timeoutInMilliseconds retryIntervalInMilliseconds
                      _ _ _ Hrun)). }
    intros u a rest Hu Hp Hw. cbv zeta.
    rewrite Hw. change (length (a :: rest)) with (S (length rest)).
    pose proof (getStatus_settles_on u w a rest Hu Hp Hw) as Hs.
    split; [|split; [|split]].
    + intros detail ->. exact (poll_rejects _ _ _ _ Hs).
    + intros res -> Hn.
      assert (G : getStatus_result res
                  = Throw (ErrUnrecognizedStatus (status res) (body res))).
      { unfold getStatus_result, status_code_accepted in *. status_cases. }
      cbv beta iota in Hs. rewrite G in Hs. exact (poll_rejects _ _ _ _ Hs).
    + intros res r -> Ha Hr.
      assert (G : getStatus_result res = Ok (body res)).
      { unfold getStatus_result, status_code_accepted in *. status_cases. }
      cbv beta iota in Hs. rewrite G in Hs.
      exact (poll_returns_terminal _ _ _ _ _ Hs Hr).
    + intros res elapsed later -> Ha Hr Hc.
      assert (G : getStatus_result res = Ok (body res)).
      { unfold getStatus_result, status_code_accepted in *. status_cases. }
      cbv beta iota in Hs. rewrite G in Hs. split.
      * intros He.
        exact (poll_falls_back _ _ _ _ _ _ Hs Hr Hc He).
      * intros He.
        exists (sleep_time timeoutInMilliseconds retryIntervalInMilliseconds elapsed).
        exact (poll_repeats _ _ _ _ _ _ Hs Hr Hc He).
Qed.

End WaitFacts.

(* ================================================================= *)
(** ** The sleep of an iteration, on doubles *)

Section DoublesFacts.
Context {P : Platform}.
Variable cd : OrchestrationClientInputData.
Variable request : option TriggerRequest.
Variable instanceId : jsstring.
Variables timeoutInMilliseconds retryIntervalInMilliseconds : PrimFloat.float.

Import DurableOrchestrationClient.

Local Abbreviation iteration :=
  (Doubles.poll_iteration cd request instanceId timeoutInMilliseconds
     retryIntervalInMilliseconds) (only parsing).
Local Abbreviation loop fuel :=
  (Doubles.poll cd fuel request instanceId timeoutInMilliseconds
     retryIntervalInMilliseconds) (only parsing).

Lemma doubles_iteration_sleeps (w : Doubles.timed_world) (st : value) (n : world)
    (elapsed : PrimFloat.float) (later : list PrimFloat.float) :
  getStatus cd instanceId false false (Doubles.net w) = Some (Ok st, n) ->
  terminal_response st = None ->
  Doubles.readings w = elapsed :: later ->
  PrimFloat.ltb elapsed timeoutInMilliseconds = true ->
  iteration w
  = Some (Ok None,
          Doubles.mkTimed n later
            (Doubles.sleeps w ++
             [Doubles.sleep_time timeoutInMilliseconds retryIntervalInMilliseconds
                elapsed])).
Proof.
  intros Hs Ht Hc He.
  unfold Doubles.poll_iteration, Doubles.bind, Doubles.on_network.
  rewrite Hs, Ht. unfold Doubles.hrElapsed. simpl. rewrite Hc, He. reflexivity.
Qed.

Lemma doubles_iteration_settles (w : Doubles.timed_world) (u : URL)
    (a : jsstring + IHttpResponse) (rest : list (jsstring + IHttpResponse)) :
  parse_url (getStatus_url cd instanceId false false) = Some u ->
  supported_protocol u ->
  pending (Doubles.net w) = a :: rest ->
  let queried :=
    Doubles.mkTimed
      (mkWorld rest (sent (Doubles.net w) ++ [status_query u])
         (clock (Doubles.net w)) (slept (Doubles.net w)))
      (Doubles.readings w) (Doubles.sleeps w) in
  (forall detail,
     a = inl detail ->
     iteration w = Some (Throw (ErrTransport detail), queried)) /\
  (forall res,
     a = inr res ->
     ~ status_code_accepted (status res) ->
     iteration w
     = Some (Throw (ErrUnrecognizedStatus (status res) (body res)), queried)) /\
  (forall res r,
     a = inr res ->
     status_code_accepted (status res) ->
     terminal_response (body res) = Some r ->
     iteration w = Some (Ok (Some r), queried)).
Proof.
  intros Hu Hp Hw queried.
  pose proof (getStatus_settles_on cd instanceId u (Doubles.net w) a rest Hu Hp Hw)
    as Hs.
  unfold Doubles.poll_iteration, Doubles.bind, Doubles.on_network.
  split; [|split].
  - intros detail ->. now rewrite Hs.
  - intros res -> Hn.
    assert (G : getStatus_result res
                = Throw (ErrUnrecognizedStatus (status res) (body res))).
    { unfold getStatus_result, status_code_accepted in *. status_cases. }
    cbv beta iota in Hs. rewrite G in Hs. now rewrite Hs.
  - intros res r -> Ha Hr.
    assert (G : getStatus_result res = Ok (body res)).
    { unfold getStatus_result, status_code_accepted in *. status_cases. }
    cbv beta iota in Hs. rewrite G in Hs. rewrite Hs, Hr. reflexivity.
Qed.

(** C5 (as amended). In an iteration of the polling loop in which the
    status query yields a status that is not terminal and the elapsed time
    read is strictly below the timeout, the loop sleeps exactly once, for
    the smaller of the retry interval and the remaining time, where the
    remaining time is the double [timeout - elapsed] (the rounded
    difference): the retry interval when it is below the remaining time,
    the remaining time otherwise. It then queries again: whatever the
    endpoint answers next, the next thing logged is a status query, and a
    connection error, an unrecognized status code or a terminal status ends
    the operation after that query with this one sleep. *)
Theorem poll_iteration_sleeps_clamped (w : Doubles.timed_world) (st : value)
    (n : world) (elapsed : PrimFloat.float) (later : list PrimFloat.float) :
  getStatus cd instanceId false false (Doubles.net w) = Some (Ok st, n) ->
  nonterminal st ->
  Doubles.readings w = elapsed :: later ->
  PrimFloat.ltb elapsed timeoutInMilliseconds = true ->
  let remainingTime := PrimFloat.sub timeoutInMilliseconds elapsed in
  let d := Doubles.sleep_time timeoutInMilliseconds retryIntervalInMilliseconds
             elapsed in
  iteration w = Some (Ok None, Doubles.mkTimed n later (Doubles.sleeps w ++ [d])) /\
  (PrimFloat.ltb retryIntervalInMilliseconds remainingTime = true ->
   d = retryIntervalInMilliseconds) /\
  (PrimFloat.ltb retryIntervalInMilliseconds remainingTime = false ->
   d = remainingTime) /\
  forall fuel u a rest,
    parse_url (getStatus_url cd instanceId false false) = Some u ->
    supported_protocol u ->
    pending n = a :: rest ->
    let queried :=
      Doubles.mkTimed
        (mkWorld rest (sent n ++ [status_query u]) (clock n) (slept n))
        later (Doubles.sleeps w ++ [d]) in
    (forall detail,
       a = inl detail ->
       loop (S (S fuel)) w = Some (Throw (ErrTransport detail), queried)) /\
    (forall res,
       a = inr res ->
       ~ status_code_accepted (status res) ->
       loop (S (S fuel)) w
       = Some (Throw (ErrUnrecognizedStatus (status res) (body res)), queried)) /\
    (forall res r,
       a = inr res ->
       status_code_accepted (status res) ->
       terminal_response (body res) = Some r ->
       loop (S (S fuel)) w = Some (Ok r, queried)).
Proof.
  intros Hs Hn Hc He remainingTime d.
  pose proof (doubles_iteration_sleeps w st n elapsed later Hs
                (terminal_response_nonterminal _ Hn) Hc He) as E.
  split; [exact E|]. split; [|split].
  - intros H. unfold d, Doubles.sleep_time. fold remainingTime. now rewrite H.
  - intros H. unfold d, Doubles.sleep_time. fold remainingTime. now rewrite H.
  - intros fuel u a rest Hu Hp Hw queried.
    assert (L : forall k : Doubles.T IHttpResponse,
              Doubles.bind iteration
                (fun r => match r with
                          | Some res => Doubles.ret res
                          | None => k
                          end) w
              = k (Doubles.mkTimed n later (Doubles.sleeps w ++ [d]))).
    { intros k. unfold Doubles.bind at 1. now rewrite E. }
    destruct (doubles_iteration_settles
                (Doubles.mkTimed n later (Doubles.sleeps w ++ [d])) u a rest
                Hu Hp Hw) as [H1 [H2 H3]].
    split; [|split].
    + intros detail Ha. cbn [Doubles.poll]. rewrite L.
      unfold Doubles.bind at 1. now rewrite (H1 detail Ha).
    + intros res Ha Hna. cbn [Doubles.poll]. rewrite L.
      unfold Doubles.bind at 1. now rewrite (H2 res Ha Hna).
    + intros res r Ha Hacc Hr. cbn [Doubles.poll]. rewrite L.
      unfold Doubles.bind at 1. now rewrite (H3 res r Ha Hacc Hr).
Qed.

End DoublesFacts.

(* ================================================================= *)
(** ** Headers *)

Section HeaderFacts.
Context {P : Platform}.

Import DurableOrchestrationClient.

(** Every request the transport builds declares JSON content, and its
    Content-Length is the [.length] of the JSON text of the input, or 0
    when no input is supplied. *)
Lemma build_request_headers (url : URL) (httpMethod : jsstring) (input : value)
    (timeoutInMilliseconds : option Q) (r : sent_request) :
  WebhookClient.build_request url httpMethod input timeoutInMilliseconds = Ok r ->
  lookup (js "Content-Type") (opt_headers (options r))
  = Some (VStr (js "application/json")) /\
  (input = VUndefined ->
   lookup (js "Content-Length") (opt_headers (options r)) = Some (VNum 0)) /\
  (input <> VUndefined ->
   exists d, JSON_stringify input = Some d /\
             lookup (js "Content-Length") (opt_headers (options r))
             = Some (VNum (Z.of_nat (length d)))).
Proof.
  unfold WebhookClient.build_request. intros H.
  destruct (str_eqb (protocol url) (js "http:")) eqn:E1;
    [|destruct (str_eqb (protocol url) (js "https:")) eqn:E2].
  3: { destruct input; simpl in H; try discriminate;
       destruct (JSON_stringify _); discriminate. }
  all: destruct input; simpl in H;
    try (destruct (JSON_stringify _) as [d|] eqn:Ed; simpl in H; [|discriminate]);
    injection H as <-; simpl;
    (split; [reflexivity|]);
    (split; [intros; try discriminate; reflexivity|]);
    intros Hne; try congruence; exists d; split; reflexivity.
Qed.

(** For a payload of ASCII characters that count is the number of bytes
    written. *)
Lemma build_request_content_length_ascii (url : URL) (input : value)
    (timeoutInMilliseconds : option Q) (r : sent_request) (d : jsstring) :
  WebhookClient.build_request url (js "POST") input timeoutInMilliseconds = Ok r ->
  input <> VUndefined ->
  JSON_stringify input = Some d ->
  ascii_only d ->
  lookup (js "Content-Length") (opt_headers (options r))
  = Some (VNum (Z.of_nat (utf8_length d))).
Proof.
  intros H Hne Hd Ha.
  destruct (build_request_headers _ _ _ _ _ H) as [_ [_ Hl]].
  destruct (Hl Hne) as [d' [Hd' ->]].
  rewrite Hd in Hd'. injection Hd' as <-.
  now rewrite utf8_length_ascii.
Qed.

(** C10 (as amended). A terminal response of the polling operation has
    status 200 or 500, Content-Type application/json and a Content-Length
    header that matches its serialized body whenever that body is ASCII
    text (it is then the size of the body in bytes), and is 0 when there is
    no body. The 202 check-status response has Content-Type
    application/json, a Location header set to the status-query URL of its
    payload and a Retry-After header of 10; its body is the payload object
    itself and it carries no Content-Length header. *)
Theorem response_headers (cd : OrchestrationClientInputData)
    (request : option TriggerRequest) (instanceId : jsstring) :
  (forall st r,
     terminal_response st = Some r ->
     (status r = 200%Z \/ status r = 500%Z) /\
     lookup (js "Content-Type") (headers r) = Some (VStr (js "application/json")) /\
     ((exists s n, body r = VStr s /\
                   lookup (js "Content-Length") (headers r) = Some (VNum n) /\
                   (ascii_only s -> n = Z.of_nat (utf8_length s))) \/
      (body r = VUndefined /\
       lookup (js "Content-Length") (headers r) = Some (VNum 0)))) /\
  (forall r,
     createCheckStatusResponse cd request instanceId = Ok r ->
     status r = 202%Z /\
     lookup (js "Content-Type") (headers r) = Some (VStr (js "application/json")) /\
     lookup (js "Retry-After") (headers r) = Some (VNum 10) /\
     lookup (js "Content-Length") (headers r) = None /\
     exists p, getClientResponseLinks cd request instanceId = Ok p /\
               body r = payload_value p /\
               lookup (js "Location") (headers r)
               = Some (VStr (statusQueryGetUri p))).
Proof.
  split.
  - intros st r H. unfold terminal_response in H.
    assert (C : forall code v,
               let r := createHttpResponse code v in
               lookup (js "Content-Type") (headers r)
               = Some (VStr (js "application/json")) /\
               ((exists s n, body r = VStr s /\
                             lookup (js "Content-Length") (headers r)
                             = Some (VNum n) /\
                             (ascii_only s -> n = Z.of_nat (utf8_length s))) \/
                (body r = VUndefined /\
                 lookup (js "Content-Length") (headers r) = Some (VNum 0)))).
    { intros code v. unfold createHttpResponse.
      destruct (JSON_stringify v) as [s|]; simpl; (split; [reflexivity|]).
      - left. exists s, (Z.of_nat (length s)). split; [reflexivity|].
        split; [reflexivity|]. intros Ha. now rewrite utf8_length_ascii.
      - right. split; reflexivity. }
    destruct (truthy st); [|discriminate].
    destruct (is_string _ OrchestrationRuntimeStatus.Completed);
      [|destruct (is_string _ OrchestrationRuntimeStatus.Canceled
                  || is_string _ OrchestrationRuntimeStatus.Terminated);
        [|destruct (is_string _ OrchestrationRuntimeStatus.Failed);
          [|discriminate]]];
      injection H as <-; (split; [simpl; tauto | apply C]).
  - intros r H. unfold createCheckStatusResponse in H.
    destruct (getClientResponseLinks cd request instanceId) as [p|];
      simpl in H; [|discriminate].
    injection H as <-. simpl.
    repeat (split; [reflexivity|]).
    exists p. repeat split; reflexivity.
Qed.

End HeaderFacts.

(** C9. On the input string U+00E9 the transport declares a Content-Length
    of 3, the [.length] of the JSON text, while the text it writes is 4
    bytes long in UTF-8: the header is not the size of the payload sent. *)
Theorem callWebhook_content_length_counts_code_units :
  exists r d,
    WebhookClient.build_request (P := Reference.platform)
      (mkURL (js "http:") (js "localhost") (js "7071") (js "/api") [] 
         (js "http://localhost:7071"))
      (js "POST") (VStr [233%N]) None = Ok r /\
    written r = Some d /\
    lookup (js "Content-Length") (opt_headers (options r)) = Some (VNum 3) /\
    utf8_length d = 4%nat.
Proof.
  eexists. eexists. split; [vm_compute; reflexivity|].
  split; [reflexivity|]. split; reflexivity.
Qed.

(** C10, as stated, fails: the 202 check-status response carries no
    Content-Length header although its body has a serialization. *)
Lemma check_status_response_without_content_length :
  exists r s,
    DurableOrchestrationClient.createCheckStatusResponse
      (P := Reference.platform) Reference.clientData None (js "abc") = Ok r /\
    status r = 202%Z /\
    Reference.stringify (body r) = Some s /\
    length s <> 0%nat /\
    lookup (js "Content-Length") (headers r) = None.
Proof.
  eexists. eexists. split; [vm_compute; reflexivity|].
  split; [reflexivity|]. split; [vm_compute; reflexivity|].
  split; [discriminate | reflexivity].
Qed.

(* ================================================================= *)
(** ** The theorems at concrete inputs *)

Section Instances.

Import DurableOrchestrationClient.
Import Reference.
Import OrchestrationRuntimeStatus.

Local Abbreviation running_body := (status_body Running VNull) (only parsing).

Lemma nonterminal_running : nonterminal (status_body Running VNull).
Proof.
  intros s [fields [E L]]. injection E as <-. vm_compute in L.
  injection L as <-.
  intros [T|[T|[T|T]]]; vm_compute in T; discriminate T.
Defined.

Lemma status_url_parses :
  exists u, parse_url (getStatus_url clientData (js "abc") false false) = Some u /\
            supported_protocol u.
Proof. eexists. split; [vm_compute; reflexivity | left; reflexivity]. Defined.

Lemma wait_for_completion_outcomes_witness :
  exists r,
    option_map fst
      (waitForCompletionOrCreateCheckStatusResponse clientData None (js "abc")
         5000 1000
         (world_of [answer 202 running_body; answer 202 running_body;
                    answer 200 (status_body Completed (VObj [(js "x", VNum 1)]))]
            [1; 1002]))
    = Some (Ok r) /\
    status r = 200%Z /\
    body r = serialized (VObj [(js "x", VNum 1)]).
Proof.
  destruct status_url_parses as [u [Hu Hp]].
  refine (proj1 (wait_for_completion_outcomes clientData None (js "abc") 5000 1000 u
                   [(mkResponse 202 running_body [], 1);
                    (mkResponse 202 running_body [], 1002)]
                   (mkResponse 200 (status_body Completed (VObj [(js "x", VNum 1)])) [])
                   [] []
                   (world_of [answer 202 running_body; answer 202 running_body;
                              answer 200 (status_body Completed
                                            (VObj [(js "x", VNum 1)]))]
                      [1; 1002])
                   _ Hu Hp eq_refl eq_refl _ _) _).
  - unfold Qle; simpl; lia.
  - repeat constructor; try exact nonterminal_running; simpl; tauto.
  - left; reflexivity.
  - eexists. split; [reflexivity | vm_compute; reflexivity].
Defined.

Lemma getStatus_status_codes_witness :
  exists w',
    getStatus clientData (js "abc") false false
      (world_of [answer 404 (VObj [])] [])
    = Some (Ok (VObj []), w').
Proof.
  eexists.
  refine (proj1 (getStatus_status_codes clientData (js "abc") false false
                   (world_of [answer 404 (VObj [])] []) _
                   (mkResponse 404 (VObj []) []) _) _).
  - vm_compute. reflexivity.
  - right; right; right; left; reflexivity.
Defined.

Lemma wait_precondition_witness :
  waitForCompletionOrCreateCheckStatusResponse clientData None (js "abc")
    1000 5000 (world_of [answer 202 running_body] [1])
  = Some (Throw (ErrTimeoutConfig 1000 5000),
          world_of [answer 202 running_body] [1]) /\
  exists r w',
    waitForCompletionOrCreateCheckStatusResponse clientData None (js "abc")
      5000 1000 (world_of [answer 200 (status_body Completed VNull)] [])
    = Some (Ok r, w') /\
    status r = 200%Z /\ length (sent w') = 1%nat.
Proof.
  split.
  - refine (proj1 (wait_precondition clientData None (js "abc") 1000 5000 _) _).
    unfold Qlt; simpl; lia.
  - destruct status_url_parses as [u [Hu Hp]].
    eexists. eexists. split.
    + refine (proj1 (proj2 (proj2
               (proj2 (proj2 (wait_precondition clientData None (js "abc") 5000 1000
                                (world_of [answer 200 (status_body Completed VNull)]
                                   []))
                         _)
                  u _ _ Hu Hp eq_refl)))
               (mkResponse 200 (status_body Completed VNull) []) _ eq_refl _ _).
      * unfold Qle; simpl; lia.
      * left; reflexivity.
      * vm_compute. reflexivity.
    + split; reflexivity.
Defined.

Lemma raiseEvent_outcomes_witness :
  exists w',
    raiseEvent clientData (js "abc") (js "Approval") (VBool true) None None
      (world_of [answer 202 VNull] []) = Some (Ok tt, w').
Proof.
  eexists.
  refine (proj1 (proj2 (raiseEvent_outcomes clientData (js "abc") (js "Approval")
                          (VBool true) None None (world_of [answer 202 VNull] []))
                   _ (mkResponse 202 VNull []) _ _) _).
  - discriminate.
  - vm_compute. reflexivity.
  - left; reflexivity.
Defined.

Lemma startNew_outcomes_witness :
  exists w',
    startNew clientData (js "Foo") None VNull
      (world_of [answer 200 (VObj [(js "id", VStr (js "abc123"))])] [])
    = Some (Ok (VStr (js "abc123")), w').
Proof.
  eexists.
  refine (proj1 (proj2 (proj2 (startNew_outcomes clientData (js "Foo") None VNull
                                 (world_of [answer 200
                                              (VObj [(js "id", VStr (js "abc123"))])]
                                    []))
                          _ (mkResponse 200 (VObj [(js "id", VStr (js "abc123"))]) [])
                          _ _)) _ _).
  - discriminate.
  - vm_compute. reflexivity.
  - simpl; lia.
  - reflexivity.
Defined.

Lemma terminate_rewind_outcomes_witness :
  (exists w',
     terminate clientData (js "abc") (js "done")
       (world_of [answer 410 VNull] []) = Some (Ok tt, w')) /\
  (exists w',
     rewind clientData (js "abc") (js "again")
       (world_of [answer 410 VNull] []) = Some (Throw ErrRewindUnsupported, w')).
Proof.
  split; eexists.
  - refine (proj1 (proj2 (proj2 (proj1 (terminate_rewind_outcomes clientData
                                          (js "abc") (js "done")
                                          (world_of [answer 410 VNull] []))
                                   (mkResponse 410 VNull []) _ _))) eq_refl).
    vm_compute. reflexivity.
  - refine (proj1 (proj2 (proj2 (proj1 (proj2 (terminate_rewind_outcomes clientData
                                                 (js "abc") (js "again")
                                                 (world_of [answer 410 VNull] [])))
                                   (mkResponse 410 VNull []) _ _))) eq_refl).
    vm_compute. reflexivity.
Defined.

Lemma response_headers_witness :
  (exists r,
     createCheckStatusResponse clientData None (js "abc") = Ok r /\
     status r = 202%Z /\
     lookup (js "Retry-After") (headers r) = Some (VNum 10) /\
     lookup (js "Content-Length") (headers r) = None) /\
  (exists r,
     terminal_response (status_body Completed (VStr (js "ok"))) = Some r /\
     status r = 200%Z /\
     lookup (js "Content-Length") (headers r) = Some (VNum 4)).
Proof.
  split.
  - eexists. split; [vm_compute; reflexivity|].
    match goal with
    | |- status ?r = _ /\ _ =>
        destruct (proj2 (response_headers clientData None (js "abc")) r eq_refl)
          as [H1 [_ [H3 [H4 _]]]]
    end.
    split; [exact H1|]. split; [exact H3 | exact H4].
  - eexists. split; [vm_compute; reflexivity|].
    match goal with
    | |- status ?r = _ /\ _ =>
        destruct (proj1 (response_headers (P := platform) clientData None
                           (js "abc"))
                    (status_body Completed (VStr (js "ok"))) r
                    ltac:(vm_compute; reflexivity))
          as [_ [_ [[s [n [Hb [Hl Ha]]]]|[Hb _]]]]
    end.
    + split; [reflexivity|]. rewrite Hl. injection Hb as <-.
      rewrite Ha; [reflexivity|]. repeat constructor.
    + discriminate Hb.
Defined.

End Instances.

Section DoublesInstances.

Import DurableOrchestrationClient.
Import Reference.
Import OrchestrationRuntimeStatus.
Import PrimFloat.

(** A timeout of 10000 ms, a retry interval of 9000 ms and the elapsed time
    of [process.hrtime] = [2, 559353361], 2 * 1000 + 559353361 / 1e6, the
    double printed as 2559.3533609999999. *)
Local Abbreviation timeout := (10000%float) (only parsing).
Local Abbreviation retry := (9000%float) (only parsing).
Local Abbreviation elapsed := (0x1.3feb4ebbba55dp+11%float) (only parsing).

Local Abbreviation polled :=
  (Doubles.mkTimed (world_of [answer 202 (status_body Running VNull)] [])
     [elapsed] []) (only parsing).

(** C5, as stated, fails: the sleep of that iteration is the rounded
    difference 7440.6466390000005, which is not min(retry, timeout -
    elapsed), and it ends 1/2^41 ms past the deadline. *)
Lemma sleep_overshoots_deadline_by_rounding :
  exists w' d,
    Doubles.poll_iteration clientData None (js "abc") timeout retry polled
    = Some (Ok None, w') /\
    Doubles.sleeps w' = [d] /\
    ltb elapsed timeout = true /\
    ~ (Doubles.exact d
       == Qmin (Doubles.exact retry) (Doubles.exact timeout - Doubles.exact elapsed))%Q /\
    (Doubles.exact timeout < Doubles.exact elapsed + Doubles.exact d)%Q.
Proof.
  eexists. eexists. split; [vm_compute; reflexivity|].
  split; [reflexivity|]. split; [reflexivity|]. split.
  - intros H. vm_compute in H. discriminate H.
  - vm_compute. reflexivity.
Qed.

Lemma poll_iteration_sleeps_clamped_witness :
  exists w',
    Doubles.poll_iteration clientData None (js "abc") timeout retry polled
    = Some (Ok None, w') /\
    Doubles.sleeps w' = [sub timeout elapsed].
Proof.
  destruct status_url_parses as [u [Hu Hp]].
  destruct (poll_iteration_sleeps_clamped clientData None (js "abc") timeout retry
              polled _ _ elapsed []
              (getStatus_answer clientData (js "abc") u
                 (world_of [answer 202 (status_body Running VNull)] [])
                 (mkResponse 202 (status_body Running VNull) []) [] Hu Hp eq_refl
                 (or_intror (or_introl eq_refl)))
              nonterminal_running eq_refl eq_refl)
    as [H1 [_ [H3 _]]].
  eexists. split; [exact H1|]. simpl. rewrite H3; reflexivity.
Defined.

End DoublesInstances.

Section WireInstances.

Import Reference.

(** startNew("Foo") answered 202 without a body is never settled, while the
    same answer with the body null resolves with no id. *)
Lemma startNew_never_settles_on_empty_body_witness :
  (exists q,
     Wire.startNew clientData (js "Foo") None VNull
       (Wire.mkWire [inr (Wire.mkMessage 202 [] [])] [])
     = Wire.NeverSettles (Wire.mkWire [] [q])) /\
  (exists w',
     Wire.startNew clientData (js "Foo") None VNull
       (Wire.mkWire [inr (Wire.mkMessage 202 [js "null"] [])] [])
     = Wire.Settled (Ok VUndefined) w').
Proof.
  split.
  - eexists.
    refine (startNew_never_settles_on_empty_body (P := platform) (D := decoder)
              clientData (js "Foo") None VNull _ _
              (Wire.mkWire [inr (Wire.mkMessage 202 [] [])] [])
              (Wire.mkMessage 202 [] []) [] eq_refl _ _ _ eq_refl _).
    + discriminate.
    + vm_compute. reflexivity.
    + vm_compute. reflexivity.
    + constructor.
  - eexists. vm_compute. reflexivity.
Defined.

End WireInstances.

(* ================================================================= *)
(** ** Scenarios of the specification *)

Section Scenarios.

Import DurableOrchestrationClient.
Import Reference.
Import OrchestrationRuntimeStatus.

(** The status endpoint answers Running twice and then Completed with
    output {x: 1}; timeout 5000, retry interval 1000. The result is HTTP 200
    with the serialized output, after three status queries and two sleeps
    of 1000 ms. *)
Example scenario_completes_on_third_query :
  exists r w',
    waitForCompletionOrCreateCheckStatusResponse clientData None (js "abc")
      5000 1000
      (world_of [answer 202 (status_body Running VNull);
                 answer 202 (status_body Running VNull);
                 answer 200 (status_body Completed (VObj [(js "x", VNum 1)]))]
         [1; 1002])
    = Some (Ok r, w') /\
    status r = 200%Z /\
    body r = serialized (VObj [(js "x", VNum 1)]) /\
    length (sent w') = 3%nat /\
    slept w' = [1000; 1000].
Proof. eexists. eexists. split; [vm_compute; reflexivity|]. repeat split. Qed.

(** The status endpoint always answers Running; timeout 2000, retry interval
    1000. The result is the check-status response: HTTP 202 with a Location
    header and Retry-After 10. *)
Example scenario_times_out :
  exists r w',
    waitForCompletionOrCreateCheckStatusResponse clientData None (js "abc")
      2000 1000
      (world_of [answer 202 (status_body Running VNull);
                 answer 202 (status_body Running VNull);
                 answer 202 (status_body Running VNull);
                 answer 202 (status_body Running VNull)]
         [3; 1005; 2007; 3009])
    = Some (Ok r, w') /\
    createCheckStatusResponse clientData None (js "abc") = Ok r /\
    status r = 202%Z /\
    lookup (js "Location") (headers r)
    = Some (VStr (base ++ js "instances/abc" ++ query)) /\
    lookup (js "Retry-After") (headers r) = Some (VNum 10) /\
    length (sent w') = 3%nat /\
    slept w' = [1000; 995].
Proof.
  eexists. eexists. split; [vm_compute; reflexivity|].
  repeat split; vm_compute; reflexivity.
Qed.

(** startNew answered with 500 and the body boom fails with that body as
    the message. *)
Example scenario_startNew_fails :
  option_map fst
    (startNew clientData (js "Foo") None VNull
       (world_of [answer 500 (VStr (js "boom"))] []))
  = Some (Throw (ErrBody (VStr (js "boom")))).
Proof. vm_compute. reflexivity. Qed.

(** A retry interval above the timeout sends nothing. *)
Example scenario_inverted_bounds_sends_nothing :
  option_map (fun x => sent (snd x))
    (waitForCompletionOrCreateCheckStatusResponse clientData None (js "abc")
       1000 5000 (world_of [answer 200 (status_body Completed VNull)] [1]))
  = Some [].
Proof. vm_compute. reflexivity. Qed.

End Scenarios.

(* ================================================================= *)
(** ** The transport: one exchange, or none *)

Section TransportFacts.
Context {P : Platform}.

Lemma callWebhook_answer (url : URL) (httpMethod : jsstring) (input : value)
    (timeoutInMilliseconds : option Q) (q : sent_request) (w : world)
    (a : jsstring + IHttpResponse) (rest : list (jsstring + IHttpResponse)) :
  WebhookClient.build_request url httpMethod input timeoutInMilliseconds = Ok q ->
  pending w = a :: rest ->
  WebhookClient.callWebhook url httpMethod input timeoutInMilliseconds w
  = Some (answered a, mkWorld rest (sent w ++ [q]) (clock w) (slept w)).
Proof.
  intros Hq Hw. unfold WebhookClient.callWebhook, bind, lift. rewrite Hq.
  unfold exchange. rewrite Hw. destruct a; reflexivity.
Qed.

Lemma callWebhook_not_built (url : URL) (httpMethod : jsstring) (input : value)
    (timeoutInMilliseconds : option Q) (e : error) (w : world) :
  WebhookClient.build_request url httpMethod input timeoutInMilliseconds = Throw e ->
  WebhookClient.callWebhook url httpMethod input timeoutInMilliseconds w
  = Some (Throw e, w).
Proof.
  intros Hq. unfold WebhookClient.callWebhook, bind, lift. now rewrite Hq.
Qed.

(** A URL whose scheme is neither http: nor https: never reaches the
    network: the call settles with an error in the unchanged world, and the
    error is the unrecognized-protocol error whenever the input is absent
    or has a JSON text. *)
Theorem callWebhook_unsupported_scheme_sends_nothing (url : URL)
    (httpMethod : jsstring) (input : value) (timeoutInMilliseconds : option Q)
    (w : world) :
  protocol url <> js "http:" ->
  protocol url <> js "https:" ->
  exists e,
    WebhookClient.callWebhook url httpMethod input timeoutInMilliseconds w
    = Some (Throw e, w) /\
    (input = VUndefined \/ JSON_stringify input <> None ->
     e = ErrUnrecognizedProtocol (protocol url)).
Proof.
  intros H1 H2. apply str_eqb_neq in H1. apply str_eqb_neq in H2.
  assert (B : exists e,
             WebhookClient.build_request url httpMethod input timeoutInMilliseconds
             = Throw e /\
             (input = VUndefined \/ JSON_stringify input <> None ->
              e = ErrUnrecognizedProtocol (protocol url))).
  { unfold WebhookClient.build_request. rewrite H1, H2.
    destruct (JSON_stringify input) as [d|] eqn:E; destruct input; simpl;
      eexists; (split; [reflexivity|]);
      try (intros _; reflexivity);
      intros [H|H]; solve [discriminate H | congruence]. }
  destruct B as [e [He Hk]]. exists e. split; [|exact Hk].
  now apply callWebhook_not_built.
Qed.

(** A call that settles has either failed while building the request, in
    the unchanged world, or has logged exactly that request, taken exactly
    one scripted answer and settled on it: a response as it is, a
    connection error as the transport error; it touches neither the clock
    nor the timer. *)
Theorem callWebhook_one_exchange (url : URL) (httpMethod : jsstring)
    (input : value) (timeoutInMilliseconds : option Q) (w w' : world)
    (r : outcome IHttpResponse) :
  WebhookClient.callWebhook url httpMethod input timeoutInMilliseconds w
  = Some (r, w') ->
  (exists e,
     WebhookClient.build_request url httpMethod input timeoutInMilliseconds
     = Throw e /\ r = Throw e /\ w' = w) \/
  (exists q a,
     WebhookClient.build_request url httpMethod input timeoutInMilliseconds = Ok q /\
     pending w = a :: pending w' /\
     sent w' = sent w ++ [q] /\
     clock w' = clock w /\
     slept w' = slept w /\
     r = answered a).
Proof.
  intros H.
  destruct (WebhookClient.build_request url httpMethod input timeoutInMilliseconds)
    as [q|e] eqn:B.
  - right. destruct (pending w) as [|a rest] eqn:Hw.
    + unfold WebhookClient.callWebhook, bind, lift in H. rewrite B in H.
      unfold exchange in H. rewrite Hw in H. discriminate.
    + rewrite (callWebhook_answer _ _ _ _ q w a rest B Hw) in H.
      injection H as <- <-. exists q, a. simpl. repeat split; reflexivity.
  - left. rewrite (callWebhook_not_built _ _ _ _ e w B) in H.
    injection H as <- <-. exists e. repeat split; reflexivity.
Qed.

(** In the two ways the client calls the transport (GET without input,
    POST with or without input) the declared Content-Length is the number
    of UTF-16 code units of the text handed to [req.write], and 0 when
    nothing is written; a GET writes nothing. The platform is any whose
    JSON.stringify(undefined) is undefined. *)
Theorem request_declares_what_it_writes (url : URL) (httpMethod : jsstring)
    (input : value) (timeoutInMilliseconds : option Q) (q : sent_request) :
  JSON_stringify VUndefined = None ->
  (httpMethod = js "GET" /\ input = VUndefined) \/ httpMethod = js "POST" ->
  WebhookClient.build_request url httpMethod input timeoutInMilliseconds = Ok q ->
  lookup (js "Content-Length") (opt_headers (options q))
  = Some (VNum (Z.of_nat (length (match written q with
                                  | Some d => d
                                  | None => []
                                  end)))) /\
  (httpMethod = js "GET" -> written q = None).
Proof.
  intros Hu Hm H. unfold WebhookClient.build_request in H.
  assert (W : forall d : jsstring,
             Z.of_nat (length d)
             = Z.of_nat (length (match (if negb (str_eqb d []) then Some d else None)
                                 with Some x => x | None => [] end))).
  { intros d. destruct d; reflexivity. }
  assert (G : js "POST" <> js "GET") by (vm_compute; discriminate).
  destruct (str_eqb (protocol url) (js "http:"));
    [|destruct (str_eqb (protocol url) (js "https:"))].
  3: { destruct input; simpl in H; try discriminate;
       match type of H with
       | context [JSON_stringify ?v] => destruct (JSON_stringify v)
       end; discriminate. }
  all: destruct Hm as [[-> ->]| ->];
    [ rewrite Hu in H; simpl in H; injection H as <-; simpl; split; reflexivity |].
  all: destruct input; simpl in H;
    try (rewrite Hu in H; simpl in H);
    try (match type of H with
         | context [JSON_stringify ?v] =>
             destruct (JSON_stringify v) as [d|] eqn:Ed
         end; simpl in H; [|discriminate]);
    injection H as <-; simpl;
    (split; [|intros Hg; exfalso; exact (G Hg)]);
    try reflexivity;
    change (str_eqb (js "POST") (js "POST")) with true; simpl;
    rewrite (W d) at 1; reflexivity.
Qed.

End TransportFacts.

(* ================================================================= *)
(** ** The single-call operations *)

Section SingleCallFacts.
Context {P : Platform}.

Import DurableOrchestrationClient.

Lemma new_URL_invalid (url : jsstring) (w : world) :
  parse_url url = None ->
  lift (new_URL url) w = Some (Throw (TypeErrorInvalidURL url), w).
Proof. intros H. unfold lift, new_URL. now rewrite H. Qed.

Lemma webhook_get_invalid (url : jsstring) (w : world) :
  parse_url url = None ->
  webhook_get url w = Some (Throw (TypeErrorInvalidURL url), w).
Proof. intros H. unfold webhook_get, bind. now rewrite new_URL_invalid. Qed.

Lemma webhook_post_invalid (url : jsstring) (input : value) (w : world) :
  parse_url url = None ->
  webhook_post url input w = Some (Throw (TypeErrorInvalidURL url), w).
Proof. intros H. unfold webhook_post, bind. now rewrite new_URL_invalid. Qed.

Lemma webhook_get_built (url : jsstring) (u : URL) (q : sent_request) (w : world)
    (a : jsstring + IHttpResponse) (rest : list (jsstring + IHttpResponse)) :
  parse_url url = Some u ->
  WebhookClient.build_request u (js "GET") VUndefined None = Ok q ->
  pending w = a :: rest ->
  webhook_get url w
  = Some (answered a, mkWorld rest (sent w ++ [q]) (clock w) (slept w)).
Proof.
  intros Hu Hq Hw. unfold webhook_get, bind, lift, new_URL. rewrite Hu.
  unfold WebhookClient.get. now apply callWebhook_answer.
Qed.

Lemma webhook_post_built (url : jsstring) (input : value) (u : URL)
    (q : sent_request) (w : world) (a : jsstring + IHttpResponse)
    (rest : list (jsstring + IHttpResponse)) :
  parse_url url = Some u ->
  WebhookClient.build_request u (js "POST") input None = Ok q ->
  pending w = a :: rest ->
  webhook_post url input w
  = Some (answered a, mkWorld rest (sent w ++ [q]) (clock w) (slept w)).
Proof.
  intros Hu Hq Hw. unfold webhook_post, bind, lift, new_URL. rewrite Hu.
  unfold WebhookClient.post. now apply callWebhook_answer.
Qed.

Lemma at_most_one_exchange_callWebhook (url : URL) (httpMethod : jsstring)
    (input : value) (timeoutInMilliseconds : option Q) :
  at_most_one_exchange
    (WebhookClient.callWebhook url httpMethod input timeoutInMilliseconds).
Proof.
  intros w r w' H.
  destruct (WebhookClient.build_request url httpMethod input timeoutInMilliseconds)
    as [q|e] eqn:B.
  - right. destruct (pending w) as [|a rest] eqn:Hw.
    + unfold WebhookClient.callWebhook, bind, lift in H. rewrite B in H.
      unfold exchange in H. rewrite Hw in H. discriminate.
    + rewrite (callWebhook_answer _ _ _ _ q w a rest B Hw) in H.
      injection H as <- <-. exists q, a. simpl. repeat split; reflexivity.
  - left. rewrite (callWebhook_not_built _ _ _ _ e w B) in H.
    now injection H as <- <-.
Qed.

(** A step that leaves the world alone, before or after a call, adds no
    exchange. *)
Lemma at_most_one_exchange_after_pure {A B : Type} (o : outcome A) (f : A -> M B) :
  (forall a, at_most_one_exchange (f a)) ->
  at_most_one_exchange (bind (lift o) f).
Proof.
  intros Hf w r w' H. unfold bind, lift in H. destruct o as [a|e].
  - exact (Hf a _ _ _ H).
  - left. now injection H as <- <-.
Qed.

Lemma at_most_one_exchange_then_pure {A B : Type} (m : M A) (g : A -> outcome B) :
  at_most_one_exchange m ->
  at_most_one_exchange (bind m (fun a => lift (g a))).
Proof.
  intros Hm w r w' H. unfold bind, lift in H.
  destruct (m w) as [[[a|e] w1]|] eqn:E; [| |discriminate];
    injection H as <- <-; exact (Hm _ _ _ E).
Qed.

Lemma at_most_one_exchange_throw {A : Type} (e : error) :
  at_most_one_exchange (@throw A e).
Proof. intros w r w' H. left. unfold throw in H. now injection H as <- <-. Qed.

Lemma at_most_one_exchange_webhook_get (url : jsstring) :
  at_most_one_exchange (webhook_get url).
Proof.
  unfold webhook_get. apply at_most_one_exchange_after_pure.
  intros u. apply at_most_one_exchange_callWebhook.
Qed.

Lemma at_most_one_exchange_webhook_post (url : jsstring) (input : value) :
  at_most_one_exchange (webhook_post url input).
Proof.
  unfold webhook_post. apply at_most_one_exchange_after_pure.
  intros u. apply at_most_one_exchange_callWebhook.
Qed.

Variable cd : OrchestrationClientInputData.

(** No operation other than the polling loop retries: getStatus,
    getStatusAll, raiseEvent, rewind, startNew and terminate, whenever they
    settle, have sent at most one request and taken at most one answer, and
    have neither read the clock nor slept. *)
Theorem operations_send_at_most_one_request (instanceId name reason : jsstring)
    (showHistory showHistoryOutput : bool) (input : value)
    (optionalId taskHubName' connectionName : option jsstring) :
  at_most_one_exchange (getStatus cd instanceId showHistory showHistoryOutput) /\
  at_most_one_exchange (getStatusAll cd) /\
  at_most_one_exchange
    (raiseEvent cd instanceId name input taskHubName' connectionName) /\
  at_most_one_exchange (rewind cd instanceId reason) /\
  at_most_one_exchange (startNew cd name optionalId input) /\
  at_most_one_exchange (terminate cd instanceId reason).
Proof.
  repeat split.
  - unfold getStatus. apply at_most_one_exchange_then_pure,
      at_most_one_exchange_webhook_get.
  - unfold getStatusAll.
    apply (at_most_one_exchange_then_pure _ (fun res => Ok (body res))),
      at_most_one_exchange_webhook_get.
  - unfold raiseEvent. destruct (str_eqb name []);
      [apply at_most_one_exchange_throw|].
    apply at_most_one_exchange_then_pure, at_most_one_exchange_webhook_post.
  - unfold rewind.
    apply at_most_one_exchange_then_pure, at_most_one_exchange_webhook_post.
  - unfold startNew. destruct (str_eqb name []);
      [apply at_most_one_exchange_throw|].
    apply at_most_one_exchange_then_pure, at_most_one_exchange_webhook_post.
  - unfold terminate.
    apply at_most_one_exchange_then_pure, at_most_one_exchange_webhook_post.
Qed.

(** When the URL an operation has built from its template does not parse,
    the operation fails with the TypeError of [new URL] and the world is as
    it was: nothing is sent. *)
Theorem operations_reject_unparsable_url (instanceId name reason : jsstring)
    (showHistory showHistoryOutput : bool) (input : value)
    (optionalId taskHubName' connectionName : option jsstring) (w : world) :
  (parse_url (getStatus_url cd instanceId showHistory showHistoryOutput) = None ->
   getStatus cd instanceId showHistory showHistoryOutput w
   = Some (Throw (TypeErrorInvalidURL
                    (getStatus_url cd instanceId showHistory showHistoryOutput)), w)) /\
  (name <> [] ->
   parse_url (raiseEvent_url cd instanceId name taskHubName' connectionName) = None ->
   raiseEvent cd instanceId name input taskHubName' connectionName w
   = Some (Throw (TypeErrorInvalidURL
                    (raiseEvent_url cd instanceId name taskHubName' connectionName)),
           w)) /\
  (parse_url (rewind_url cd instanceId reason) = None ->
   rewind cd instanceId reason w
   = Some (Throw (TypeErrorInvalidURL (rewind_url cd instanceId reason)), w)) /\
  (name <> [] ->
   parse_url (startNew_url cd name optionalId) = None ->
   startNew cd name optionalId input w
   = Some (Throw (TypeErrorInvalidURL (startNew_url cd name optionalId)), w)) /\
  (parse_url (terminate_url cd instanceId reason) = None ->
   terminate cd instanceId reason w
   = Some (Throw (TypeErrorInvalidURL (terminate_url cd instanceId reason)), w)).
Proof.
  split; [|split; [|split; [|split]]].
  - intros H. unfold getStatus, bind. now rewrite webhook_get_invalid.
  - intros Hn H. apply str_eqb_neq in Hn. unfold raiseEvent. rewrite Hn.
    unfold bind. now rewrite webhook_post_invalid.
  - intros H. unfold rewind, bind. now rewrite webhook_post_invalid.
  - intros Hn H. apply str_eqb_neq in Hn. unfold startNew. rewrite Hn.
    unfold bind. now rewrite webhook_post_invalid.
  - intros H. unfold terminate, bind. now rewrite webhook_post_invalid.
Qed.

(** A connection error is passed on as it is: when the endpoint answers the
    request of an operation with a connection error, the operation rejects
    with that transport error, whatever the operation, after that one
    request. *)
Theorem operations_pass_on_transport_error (instanceId name reason : jsstring)
    (showHistory showHistoryOutput : bool) (input : value)
    (optionalId taskHubName' connectionName : option jsstring)
    (u : URL) (q : sent_request) (detail : jsstring)
    (rest : list (jsstring + IHttpResponse)) (w : world) :
  pending w = inl detail :: rest ->
  let failed {A : Type} : option (outcome A * world) :=
    Some (Throw (ErrTransport detail),
          mkWorld rest (sent w ++ [q]) (clock w) (slept w)) in
  (parse_url (getStatus_url cd instanceId showHistory showHistoryOutput) = Some u ->
   WebhookClient.build_request u (js "GET") VUndefined None = Ok q ->
   getStatus cd instanceId showHistory showHistoryOutput w = failed) /\
  (name <> [] ->
   parse_url (raiseEvent_url cd instanceId name taskHubName' connectionName) = Some u ->
   WebhookClient.build_request u (js "POST") input None = Ok q ->
   raiseEvent cd instanceId name input taskHubName' connectionName w = failed) /\
  (parse_url (rewind_url cd instanceId reason) = Some u ->
   WebhookClient.build_request u (js "POST") VUndefined None = Ok q ->
   rewind cd instanceId reason w = failed) /\
  (name <> [] ->
   parse_url (startNew_url cd name optionalId) = Some u ->
   WebhookClient.build_request u (js "POST") input None = Ok q ->
   startNew cd name optionalId input w = failed) /\
  (parse_url (terminate_url cd instanceId reason) = Some u ->
   WebhookClient.build_request u (js "POST") VUndefined None = Ok q ->
   terminate cd instanceId reason w = failed).
Proof.
  intros Hw failed. unfold failed.
  split; [|split; [|split; [|split]]].
  - intros Hu Hq. unfold getStatus, bind.
    now rewrite (webhook_get_built _ _ _ _ _ _ Hu Hq Hw).
  - intros Hn Hu Hq. apply str_eqb_neq in Hn. unfold raiseEvent. rewrite Hn.
    unfold bind. now rewrite (webhook_post_built _ _ _ _ _ _ _ Hu Hq Hw).
  - intros Hu Hq. unfold rewind, bind.
    now rewrite (webhook_post_built _ _ _ _ _ _ _ Hu Hq Hw).
  - intros Hn Hu Hq. apply str_eqb_neq in Hn. unfold startNew. rewrite Hn.
    unfold bind. now rewrite (webhook_post_built _ _ _ _ _ _ _ Hu Hq Hw).
  - intros Hu Hq. unfold terminate, bind.
    now rewrite (webhook_post_built _ _ _ _ _ _ _ Hu Hq Hw).
Qed.

End SingleCallFacts.

(* ================================================================= *)
(** ** Status queries over all instances *)

Section StatusListFacts.
Context {P : Platform}.
Variable cd : OrchestrationClientInputData.

Import DurableOrchestrationClient.

Lemma reduce_from_commas (others : list jsstring) (acc : jsstring) (i : nat) :
  (0 < i)%nat ->
  reduce_from
    (fun acc curr i => acc ++ (if (0 <? i)%nat then js "," else []) ++ curr)
    acc i others
  = acc ++ flat_map (fun x => js "," ++ x) others.
Proof.
  revert acc i. induction others as [|x others IH]; intros acc i Hi; simpl.
  - now rewrite app_nil_r.
  - destruct i as [|i]; [lia|].
    rewrite IH by lia. simpl. now rewrite <- app_assoc.
Qed.

Lemma join_commas (first : jsstring) (others : list jsstring) :
  Reference.join (js ",") (first :: others)
  = first ++ flat_map (fun x => js "," ++ x) others.
Proof.
  revert first. induction others as [|x others IH]; intros first.
  - simpl. now rewrite app_nil_r.
  - change (Reference.join (js ",") (first :: x :: others))
      with (first ++ js "," ++ Reference.join (js ",") (x :: others)).
    rewrite IH. simpl. reflexivity.
Qed.

(** The URL getStatusBy queries is the URL getStatusAll queries (the status
    template with the id placeholder cleared) followed by one query
    parameter for each filter given: createdTimeFrom and createdTimeTo with
    the ISO text of the date, and runtimeStats with the status names joined
    by commas, which is left out when the list is absent or empty. *)
Theorem getStatusBy_url_parameters (createdTimeFrom createdTimeTo : option Date)
    (runtimeStatus : option (list jsstring)) :
  getStatusBy_url cd createdTimeFrom createdTimeTo runtimeStatus
  = replace (statusQueryGetUri (managementUrls cd)) (id (managementUrls cd)) []
    ++ match createdTimeFrom with
       | Some d => js "&createdTimeFrom=" ++ toISOString d
       | None => []
       end
    ++ match createdTimeTo with
       | Some d => js "&createdTimeTo=" ++ toISOString d
       | None => []
       end
    ++ match runtimeStatus with
       | Some (first :: others) =>
           js "&runtimeStats=" ++ Reference.join (js ",") (first :: others)
       | _ => []
       end.
Proof.
  unfold getStatusBy_url.
  destruct createdTimeFrom as [f|]; destruct createdTimeTo as [t|];
    destruct runtimeStatus as [[|first others]|];
    rewrite ?reduce_from_commas by lia; rewrite ?join_commas;
    simpl; rewrite <- ?app_assoc; simpl; rewrite ?app_nil_r; reflexivity.
Qed.

(** Whatever the endpoint answers, getStatusBy resolves with the body for a
    status code of at most 202 and rejects with its status-code error,
    carrying code and body, for every code above 202. *)
Theorem getStatusBy_status_threshold (createdTimeFrom createdTimeTo : option Date)
    (runtimeStatus : option (list jsstring)) (w w' : world) (res : IHttpResponse) :
  webhook_get (getStatusBy_url cd createdTimeFrom createdTimeTo runtimeStatus) w
  = Some (Ok res, w') ->
  ((status res <= 202)%Z ->
   getStatusBy cd createdTimeFrom createdTimeTo runtimeStatus w
   = Some (Resolved (body res), w')) /\
  ((202 < status res)%Z ->
   getStatusBy cd createdTimeFrom createdTimeTo runtimeStatus w
   = Some (RejectedStatusCode (status res) (body res), w')).
Proof.
  intros H. unfold getStatusBy. rewrite H.
  split; intros Hc; status_cases.
Qed.

(** getStatusAll sends the same request as getStatusBy without filters,
    and, unlike getStatus and getStatusBy, never fails on a status code:
    whatever the endpoint answers, it resolves with the body. *)
Theorem getStatusAll_passes_any_status (w w' : world) (res : IHttpResponse) :
  webhook_get (getStatusBy_url cd None None None) w = Some (Ok res, w') ->
  getStatusAll cd w = Some (Ok (body res), w') /\
  (~ status_code_accepted (status res) ->
   getStatus_result res = Throw (ErrUnrecognizedStatus (status res) (body res))) /\
  ((202 < status res)%Z ->
   getStatusBy cd None None None w
   = Some (RejectedStatusCode (status res) (body res), w')).
Proof.
  intros H. split; [|split].
  - unfold getStatusAll, bind. unfold getStatusBy_url in H. simpl in H.
    now rewrite H.
  - intros Hc. unfold getStatus_result, status_code_accepted in *. status_cases.
  - intros Hc. unfold getStatusBy. rewrite H. status_cases.
Qed.

End StatusListFacts.

(* ================================================================= *)
(** ** URLs built from templates *)

Section TemplateFacts.
Context {P : Platform}.
Variable cd : OrchestrationClientInputData.

Import DurableOrchestrationClient.

Lemma split_first_unfold (p s : jsstring) :
  split_first p s
  = if startsWith p s then Some ([], skipn (length p) s)
    else match s with
         | [] => None
         | c :: s' =>
             match split_first p s' with
             | Some (a, b) => Some (c :: a, b)
             | None => None
             end
         end.
Proof. destruct s; reflexivity. Qed.

Lemma split_first_prefix (p y : jsstring) : split_first p (p ++ y) = Some ([], y).
Proof.
  rewrite split_first_unfold.
  assert (H : startsWith p (p ++ y) = true) by (apply startsWith_app; now exists y).
  now rewrite H, skipn_prefix.
Qed.

(** A pattern is found right after a text that is free of its first
    character. *)
Lemma split_first_at (p x y : jsstring) (c : char16) :
  hd_error p = Some c ->
  free_of c x ->
  split_first p (x ++ p ++ y) = Some (x, y).
Proof.
  intros Hp. induction x as [|d x IH]; intros Hf.
  - exact (split_first_prefix p y).
  - rewrite split_first_unfold.
    assert (Hd : startsWith p ((d :: x) ++ p ++ y) = false).
    { destruct p as [|c' p']; [discriminate|]. injection Hp as ->. simpl.
      destruct (N.eqb_spec c d) as [->|_]; [|reflexivity].
      exfalso. apply Hf. now left. }
    rewrite Hd. simpl. rewrite IH; [reflexivity|].
    intros Hin. apply Hf. now right.
Qed.

Lemma replace_at (p x y r : jsstring) (c : char16) :
  hd_error p = Some c ->
  free_of c x ->
  ~ In dollar r ->
  replace (x ++ p ++ y) p r = x ++ r ++ y.
Proof.
  intros Hp Hf Hr. unfold replace.
  rewrite (split_first_at p x y c Hp Hf).
  now rewrite GetSubstitution_plain.
Qed.

Lemma free_of_app (c : char16) (s t : jsstring) :
  free_of c s -> free_of c t -> free_of c (s ++ t).
Proof.
  intros Hs Ht Hin. apply in_app_or in Hin. destruct Hin; [now apply Hs | now apply Ht].
Qed.

(** For a creation template of the shape
    a{functionName}b[/{instanceId}]c whose parts before the placeholders
    hold no opening brace or bracket, startNew posts to a name b c when no
    instance id (or an empty one) is given, and to a name b /id c when one
    is given; names and ids are free of dollar signs and the name of
    opening brackets. *)
Theorem startNew_url_shape (name a b c : jsstring) :
  createNewInstancePostUri (creationUrls cd)
  = a ++ functionNamePlaceholder ++ b ++ instanceIdPlaceholder ++ c ->
  free_of 123%N a ->
  free_of 91%N a -> free_of 91%N name -> free_of 91%N b ->
  ~ In dollar name ->
  startNew_url cd name None = a ++ name ++ b ++ c /\
  startNew_url cd name (Some []) = a ++ name ++ b ++ c /\
  (forall i, i <> [] -> ~ In dollar i ->
     startNew_url cd name (Some i) = a ++ name ++ b ++ js "/" ++ i ++ c).
Proof.
  intros Ht Ha Ha' Hn Hb Hd.
  assert (F : replace (createNewInstancePostUri (creationUrls cd))
                functionNamePlaceholder name
              = (a ++ name ++ b) ++ instanceIdPlaceholder ++ c).
  { rewrite Ht. rewrite (replace_at functionNamePlaceholder a _ name 123%N eq_refl Ha Hd).
    now rewrite <- !app_assoc. }
  assert (Fr : free_of 91%N (a ++ name ++ b))
    by (repeat apply free_of_app; assumption).
  assert (R : forall r, ~ In dollar r ->
              replace ((a ++ name ++ b) ++ instanceIdPlaceholder ++ c)
                instanceIdPlaceholder r
              = a ++ name ++ b ++ r ++ c).
  { intros r Hr. rewrite (replace_at instanceIdPlaceholder _ c r 91%N eq_refl Fr Hr).
    now rewrite <- !app_assoc. }
  unfold startNew_url. rewrite F.
  split; [|split].
  - cbv beta iota. now rewrite (R [] (fun H => H)).
  - cbv beta iota. rewrite (str_eqb_refl []). now rewrite (R [] (fun H => H)).
  - intros i Hi Hdi. apply str_eqb_neq in Hi. cbv beta iota. rewrite Hi.
    rewrite R; [now rewrite <- app_assoc|].
    intros [H|H]; [discriminate H | now apply Hdi].
Qed.

(** createCheckStatusResponse parses the URL of the triggering request as
    soon as one template is a URL for the validator: when the request
    carries a URL that cannot be used, it throws the error of that parse
    instead of falling back to the configured links. *)
Theorem createCheckStatusResponse_needs_parsable_request_url
    (request : option TriggerRequest) (instanceId : jsstring) (e : error) :
  hasValidRequestUrl request = true ->
  request_URL request = Throw e ->
  isURL (id (managementUrls cd)) = true \/
  isURL (statusQueryGetUri (managementUrls cd)) = true \/
  isURL (sendEventPostUri (managementUrls cd)) = true \/
  isURL (terminatePostUri (managementUrls cd)) = true \/
  isURL (rewindPostUri (managementUrls cd)) = true \/
  isURL (purgeHistoryDeleteUri (managementUrls cd)) = true ->
  createCheckStatusResponse cd request instanceId = Throw e.
Proof.
  intros Hv He Hsome.
  unfold createCheckStatusResponse, getClientResponseLinks, rewrite_link.
  rewrite Hv, He.
  destruct (isURL (id (managementUrls cd))) eqn:E1; [reflexivity|].
  destruct (isURL (statusQueryGetUri (managementUrls cd))) eqn:E2; [reflexivity|].
  destruct (isURL (sendEventPostUri (managementUrls cd))) eqn:E3; [reflexivity|].
  destruct (isURL (terminatePostUri (managementUrls cd))) eqn:E4; [reflexivity|].
  destruct (isURL (rewindPostUri (managementUrls cd))) eqn:E5; [reflexivity|].
  destruct (isURL (purgeHistoryDeleteUri (managementUrls cd))) eqn:E6; [reflexivity|].
  exfalso. destruct Hsome as [H|[H|[H|[H|[H|H]]]]]; discriminate H.
Qed.

(** Without a usable request URL, or when no template is a URL for the
    validator, createCheckStatusResponse never throws: it returns the 202
    response built from the configured links alone, the one it returns for
    no request at all. *)
Theorem createCheckStatusResponse_without_rewrite
    (request : option TriggerRequest) (instanceId : jsstring) :
  hasValidRequestUrl request = false \/
  (isURL (id (managementUrls cd)) = false /\
   isURL (statusQueryGetUri (managementUrls cd)) = false /\
   isURL (sendEventPostUri (managementUrls cd)) = false /\
   isURL (terminatePostUri (managementUrls cd)) = false /\
   isURL (rewindPostUri (managementUrls cd)) = false /\
   isURL (purgeHistoryDeleteUri (managementUrls cd)) = false) ->
  exists r,
    createCheckStatusResponse cd request instanceId = Ok r /\
    createCheckStatusResponse cd None instanceId = Ok r /\
    status r = 202%Z.
Proof.
  intros H.
  assert (E : getClientResponseLinks cd request instanceId
              = getClientResponseLinks cd None instanceId).
  { destruct H as [H|[H1 [H2 [H3 [H4 [H5 H6]]]]]].
    - now rewrite !getClientResponseLinks_without_request.
    - unfold getClientResponseLinks, rewrite_link.
      rewrite H1, H2, H3, H4, H5, H6, !andb_false_r. reflexivity. }
  unfold createCheckStatusResponse. rewrite E.
  rewrite (getClientResponseLinks_without_request cd None instanceId eq_refl).
  simpl. eexists. repeat split; reflexivity.
Qed.

Lemma rewrite_link_rooted (request : option TriggerRequest)
    (instanceId link rest : jsstring) (requestUrl : URL) :
  hasValidRequestUrl request = true ->
  request_URL request = Ok requestUrl ->
  ~ In dollar (origin requestUrl) ->
  rooted link rest ->
  rewrite_link cd request instanceId link
  = Ok (replace (origin requestUrl ++ rest) (id (managementUrls cd)) instanceId).
Proof.
  intros Hv Hr Hd [Hu [u [Hp Hl]]].
  rewrite (rewrite_link_with_request cd request instanceId link requestUrl u
             Hv Hu Hr Hp).
  do 2 f_equal. unfold replace. rewrite Hl at 1. rewrite split_first_prefix.
  now rewrite GetSubstitution_plain.
Qed.

(** With a usable request URL, every management link that is a URL is
    returned with the origin of the request in place of its own: the
    Location header and the links of the 202 response point at the host the
    caller reached. *)
Theorem check_status_links_follow_request_origin
    (request : option TriggerRequest) (instanceId : jsstring) (requestUrl : URL)
    (r1 r2 r3 r4 r5 : jsstring) :
  hasValidRequestUrl request = true ->
  request_URL request = Ok requestUrl ->
  ~ In dollar (origin requestUrl) ->
  isURL (id (managementUrls cd)) = false ->
  rooted (statusQueryGetUri (managementUrls cd)) r1 ->
  rooted (sendEventPostUri (managementUrls cd)) r2 ->
  rooted (terminatePostUri (managementUrls cd)) r3 ->
  rooted (rewindPostUri (managementUrls cd)) r4 ->
  rooted (purgeHistoryDeleteUri (managementUrls cd)) r5 ->
  let at_request_origin := fun rest =>
    replace (origin requestUrl ++ rest) (id (managementUrls cd)) instanceId in
  exists r,
    createCheckStatusResponse cd request instanceId = Ok r /\
    lookup (js "Location") (headers r) = Some (VStr (at_request_origin r1)) /\
    body r
    = payload_value
        (mkPayload
           (replace (id (managementUrls cd)) (id (managementUrls cd)) instanceId)
           (at_request_origin r1) (at_request_origin r2) (at_request_origin r3)
           (at_request_origin r4) (at_request_origin r5)).
Proof.
  intros Hv Hr Hd Hid H1 H2 H3 H4 H5 at_request_origin.
  unfold createCheckStatusResponse, getClientResponseLinks.
  rewrite (rewrite_link_rooted _ _ _ _ _ Hv Hr Hd H1),
    (rewrite_link_rooted _ _ _ _ _ Hv Hr Hd H2),
    (rewrite_link_rooted _ _ _ _ _ Hv Hr Hd H3),
    (rewrite_link_rooted _ _ _ _ _ Hv Hr Hd H4),
    (rewrite_link_rooted _ _ _ _ _ Hv Hr Hd H5).
  unfold rewrite_link. rewrite Hid, andb_false_r. simpl.
  eexists. repeat split; reflexivity.
Qed.

End TemplateFacts.

(* ================================================================= *)
(** ** Whole runs of the polling loop *)

Lemma sleep_time_bounds (timeout retry e : Q) :
  e < timeout ->
  DurableOrchestrationClient.sleep_time timeout retry e <= retry /\
  (0 < retry -> 0 < DurableOrchestrationClient.sleep_time timeout retry e).
Proof.
  intros He. unfold DurableOrchestrationClient.sleep_time.
  destruct (Qltb retry (timeout - e)) eqn:E.
  - split; [apply Qle_refl | tauto].
  - apply Qltb_ge in E. split; [exact E | intros _; lra].
Qed.

Section PollingRunFacts.
Context {P : Platform}.
Variable cd : OrchestrationClientInputData.
Variable request : option TriggerRequest.
Variable instanceId : jsstring.
Variables timeoutInMilliseconds retryIntervalInMilliseconds : Q.

Import DurableOrchestrationClient.

Local Abbreviation wait :=
  (waitForCompletionOrCreateCheckStatusResponse cd request instanceId
     timeoutInMilliseconds retryIntervalInMilliseconds) (only parsing).

Local Abbreviation sleeps_of running :=
  (map (fun x : IHttpResponse * Q =>
          sleep_time timeoutInMilliseconds retryIntervalInMilliseconds (snd x))
     running) (only parsing).

Lemma poll_aborts (fuel : nat) (w w1 : world) (e : error) :
  getStatus cd instanceId false false w = Some (Throw e, w1) ->
  poll cd (S fuel) request instanceId timeoutInMilliseconds
    retryIntervalInMilliseconds w
  = Some (Throw e, w1).
Proof.
  intros Hs. simpl. unfold poll_iteration, bind. now rewrite Hs.
Qed.

Lemma getStatus_on_answer (u : URL) (w : world) (a : jsstring + IHttpResponse)
    (rest : list (jsstring + IHttpResponse)) :
  parse_url (getStatus_url cd instanceId false false) = Some u ->
  supported_protocol u ->
  pending w = a :: rest ->
  getStatus cd instanceId false false w
  = Some (match a with
          | inr res => getStatus_result res
          | inl detail => Throw (ErrTransport detail)
          end,
          mkWorld rest (sent w ++ [status_query u]) (clock w) (slept w)).
Proof.
  intros Hu Hp Hw. unfold getStatus, bind.
  rewrite (webhook_get_answer _ _ _ _ _ Hu Hp Hw). destruct a; reflexivity.
Qed.

(** The operation, past the precondition, is the loop after its running
    prefix. *)
Lemma wait_after_running (u : URL) (running : list (IHttpResponse * Q))
    (next : jsstring + IHttpResponse) (rest : list (jsstring + IHttpResponse))
    (later : list Q) (w : world) :
  retryIntervalInMilliseconds <= timeoutInMilliseconds ->
  parse_url (getStatus_url cd instanceId false false) = Some u ->
  supported_protocol u ->
  pending w = map (fun x => inr (fst x)) running ++ next :: rest ->
  clock w = map snd running ++ later ->
  Forall (fun x => status_code_accepted (status (fst x)) /\
                   nonterminal (body (fst x)) /\
                   snd x < timeoutInMilliseconds) running ->
  wait w
  = poll cd (S (S (length rest))) request instanceId timeoutInMilliseconds
      retryIntervalInMilliseconds
      (mkWorld (next :: rest)
         (sent w ++ repeat (status_query u) (length running))
         later (slept w ++ sleeps_of running)).
Proof.
  intros Hle Hu Hp Hw Hc Hall.
  unfold waitForCompletionOrCreateCheckStatusResponse.
  apply Qltb_ge in Hle. rewrite Hle.
  replace (S (length (pending w)))
    with (length running + S (S (length rest)))%nat
    by (rewrite Hw, length_app, length_map; simpl; lia).
  exact (poll_through_running cd request instanceId timeoutInMilliseconds
           retryIntervalInMilliseconds u Hu Hp running _ w _ later Hw Hc Hall).
Qed.

(** The loop does not swallow a failed status query. After any run of
    answers that keep it polling, a connection error makes the operation
    reject with that transport error, and a status code outside
    200/202/400/404/500 makes it reject with the unrecognized-status error;
    it has then sent one status query per answer taken and slept once per
    answer before the failing one, and it does not fall back to the 202
    response. *)
Theorem wait_aborts_when_a_status_query_fails (u : URL)
    (running : list (IHttpResponse * Q)) (bad : jsstring + IHttpResponse)
    (rest : list (jsstring + IHttpResponse)) (later : list Q) (w : world) :
  retryIntervalInMilliseconds <= timeoutInMilliseconds ->
  parse_url (getStatus_url cd instanceId false false) = Some u ->
  supported_protocol u ->
  pending w = map (fun x => inr (fst x)) running ++ bad :: rest ->
  clock w = map snd running ++ later ->
  Forall (fun x => status_code_accepted (status (fst x)) /\
                   nonterminal (body (fst x)) /\
                   snd x < timeoutInMilliseconds) running ->
  let after :=
    mkWorld rest
      ((sent w ++ repeat (status_query u) (length running)) ++ [status_query u])
      later (slept w ++ sleeps_of running) in
  (forall detail,
     bad = inl detail ->
     wait w = Some (Throw (ErrTransport detail), after)) /\
  (forall res,
     bad = inr res ->
     ~ status_code_accepted (status res) ->
     wait w = Some (Throw (ErrUnrecognizedStatus (status res) (body res)), after)).
Proof.
  intros Hle Hu Hp Hw Hc Hall after.
  rewrite (wait_after_running u running bad rest later w Hle Hu Hp Hw Hc Hall).
  split.
  - intros detail ->.
    match goal with
    | |- poll _ _ _ _ _ _ ?w0 = _ =>
        exact (poll_aborts _ w0 _ _
                 (getStatus_on_answer u w0 (inl detail) rest Hu Hp eq_refl))
    end.
  - intros res -> Hn.
    assert (G : getStatus_result res
                = Throw (ErrUnrecognizedStatus (status res) (body res))).
    { unfold getStatus_result, status_code_accepted in *. status_cases. }
    match goal with
    | |- poll _ _ _ _ _ _ ?w0 = _ =>
        pose proof (getStatus_on_answer u w0 (inr res) rest Hu Hp eq_refl) as Hs
    end.
    cbv beta iota in Hs. rewrite G in Hs.
    exact (poll_aborts _ _ _ _ Hs).
Qed.

(** What a run costs. After n answers that keep the loop polling, a
    terminal answer ends the operation after exactly n + 1 status queries
    and n sleeps, with no clock reading after the last answer; an answer
    read at or past the timeout ends it with the 202 fallback after n + 1
    queries, n sleeps and n + 1 clock readings. Every sleep is at most the
    retry interval, and positive when the retry interval is. *)
Theorem wait_run_effects (u : URL)
    (running : list (IHttpResponse * Q)) (last : IHttpResponse)
    (rest : list (jsstring + IHttpResponse)) (later : list Q) (w : world) :
  retryIntervalInMilliseconds <= timeoutInMilliseconds ->
  parse_url (getStatus_url cd instanceId false false) = Some u ->
  supported_protocol u ->
  pending w = map (fun x => inr (fst x)) running ++ inr last :: rest ->
  clock w = map snd running ++ later ->
  Forall (fun x => status_code_accepted (status (fst x)) /\
                   nonterminal (body (fst x)) /\
                   snd x < timeoutInMilliseconds) running ->
  status_code_accepted (status last) ->
  let queried :=
    (sent w ++ repeat (status_query u) (length running)) ++ [status_query u] in
  (forall r,
     terminal_response (body last) = Some r ->
     wait w = Some (Ok r, mkWorld rest queried later (slept w ++ sleeps_of running))) /\
  (nonterminal (body last) ->
   forall elapsed later',
     later = elapsed :: later' ->
     timeoutInMilliseconds <= elapsed ->
     wait w
     = Some (createCheckStatusResponse cd request instanceId,
             mkWorld rest queried later' (slept w ++ sleeps_of running))) /\
  Forall (fun d => d <= retryIntervalInMilliseconds /\
                   (0 < retryIntervalInMilliseconds -> 0 < d))
    (sleeps_of running).
Proof.
  intros Hle Hu Hp Hw Hc Hall Hacc queried.
  rewrite (wait_after_running u running (inr last) rest later w Hle Hu Hp Hw Hc Hall).
  pose proof (getStatus_answer cd instanceId u
                (mkWorld (inr last :: rest)
                   (sent w ++ repeat (status_query u) (length running))
                   later (slept w ++ sleeps_of running))
                last rest Hu Hp eq_refl Hacc) as Hs.
  split; [|split].
  - intros r Hr.
    exact (poll_returns_terminal cd request instanceId timeoutInMilliseconds
             retryIntervalInMilliseconds _ _ _ _ r Hs Hr).
  - intros Hnt elapsed later' -> He.
    exact (poll_falls_back cd request instanceId timeoutInMilliseconds
             retryIntervalInMilliseconds _ _ _ _ elapsed later' Hs
             (terminal_response_nonterminal _ Hnt) eq_refl He).
  - clear Hw Hc Hs. induction Hall as [|x l [_ [_ Hx]] _ IH]; simpl; constructor.
    + now apply sleep_time_bounds.
    + exact IH.
Qed.

End PollingRunFacts.

(* ================================================================= *)
(** ** The further theorems at concrete inputs *)

Lemma free_of_check (c : char16) (s : jsstring) :
  forallb (fun d => negb (N.eqb c d)) s = true -> free_of c s.
Proof.
  induction s as [|d s IH]; simpl; intros H Hin; [exact Hin|].
  apply andb_true_iff in H as [Hd Hs]. destruct Hin as [->|Hin].
  - rewrite N.eqb_refl in Hd. discriminate.
  - exact (IH Hs Hin).
Defined.

Section FurtherInstances.

Import DurableOrchestrationClient.
Import Reference.
Import OrchestrationRuntimeStatus.

Local Abbreviation ftp_url :=
  (mkURL (js "ftp:") (js "h") [] (js "/") [] (js "ftp://h")) (only parsing).
Local Abbreviation local_url :=
  (mkURL (js "http:") (js "localhost") (js "7071") (js "/api") []
     (js "http://localhost:7071")) (only parsing).
Local Abbreviation running_answer :=
  (mkResponse 202 (status_body Running VNull) []) (only parsing).

Lemma callWebhook_unsupported_scheme_sends_nothing_witness :
  WebhookClient.callWebhook ftp_url (js "POST") VNull None
    (world_of [answer 202 VNull] [])
  = Some (Throw (ErrUnrecognizedProtocol (js "ftp:")),
          world_of [answer 202 VNull] []).
Proof.
  destruct (callWebhook_unsupported_scheme_sends_nothing (P := platform) ftp_url (js "POST") VNull
              None (world_of [answer 202 VNull] []))
    as [e [H He]].
  - vm_compute; discriminate.
  - vm_compute; discriminate.
  - rewrite H. rewrite He; [reflexivity|]. right. vm_compute. discriminate.
Defined.

Lemma callWebhook_one_exchange_witness :
  exists q a,
    pending (world_of [answer 202 VNull; answer 404 VNull] [])
    = a :: [answer 404 VNull] /\
    WebhookClient.build_request local_url (js "POST") VNull None = Ok q.
Proof.
  destruct (callWebhook_one_exchange (P := platform) local_url (js "POST") VNull None
              (world_of [answer 202 VNull; answer 404 VNull] [])
              (mkWorld [answer 404 VNull]
                 [mkSent false
                    (mkOptions (js "localhost") (js "/api") (js "POST")
                       [(js "Content-Type", VStr (js "application/json"));
                        (js "Content-Length", VNum 4)]
                       (Some (js "7071")) None)
                    (Some (js "null"))] [] [])
              (Ok (mkResponse 202 VNull [])) ltac:(vm_compute; reflexivity))
    as [[e [_ [He _]]]|[q [a [Hq [Hp _]]]]].
  - discriminate He.
  - exists q, a. split; assumption.
Defined.

Lemma request_declares_what_it_writes_witness :
  exists q,
    WebhookClient.build_request local_url (js "POST")
      (VObj [(js "name", VStr (js "Jo"))]) None = Ok q /\
    written q = Some (js "{" ++ [34%N] ++ js "name" ++ [34%N] ++ js ":"
                      ++ [34%N] ++ js "Jo" ++ [34%N] ++ js "}") /\
    lookup (js "Content-Length") (opt_headers (options q)) = Some (VNum 13).
Proof.
  eexists. split; [vm_compute; reflexivity|]. split; [reflexivity|].
  refine (proj1 (request_declares_what_it_writes (P := platform) local_url (js "POST")
                   (VObj [(js "name", VStr (js "Jo"))]) None _ eq_refl
                   (or_intror eq_refl) eq_refl)).
Defined.

Lemma operations_send_at_most_one_request_witness :
  exists q a,
    pending (world_of [answer 202 VNull; answer 404 VNull] []) = a :: [answer 404 VNull] /\
    q = status_query (mkURL (js "http:") (js "localhost") (js "7071")
                        (js "/runtime/webhooks/durabletask/instances/abc")
                        (js "?taskHub=hub&connection=Storage&code=k")
                        (js "http://localhost:7071")).
Proof.
  destruct (proj1 (operations_send_at_most_one_request (P := platform) clientData (js "abc")
                     (js "Foo") (js "why") false false VNull None None None)
              (world_of [answer 202 VNull; answer 404 VNull] [])
              (Ok VNull)
              (mkWorld [answer 404 VNull]
                 [status_query (mkURL (js "http:") (js "localhost") (js "7071")
                                  (js "/runtime/webhooks/durabletask/instances/abc")
                                  (js "?taskHub=hub&connection=Storage&code=k")
                                  (js "http://localhost:7071"))] [] [])
              eq_refl)
    as [H|[q [a [Hp [Hs _]]]]].
  - discriminate H.
  - simpl in Hs. injection Hs as Hq. exists q, a.
    split; [exact Hp | symmetry; exact Hq].
Defined.

Lemma operations_reject_unparsable_url_witness :
  terminate clientData_relative (js "abc") (js "why")
    (world_of [answer 202 VNull] [])
  = Some (Throw (TypeErrorInvalidURL (js "/instances/abc/terminate?reason=why")),
          world_of [answer 202 VNull] []).
Proof.
  exact (proj2 (proj2 (proj2 (proj2
           (operations_reject_unparsable_url (P := platform) clientData_relative (js "abc")
              (js "Foo") (js "why") false false VNull None None None
              (world_of [answer 202 VNull] []))))) eq_refl).
Defined.

Lemma operations_pass_on_transport_error_witness :
  exists w',
    rewind clientData (js "abc") (js "why") (world_of [inl (js "ECONNRESET")] [])
    = Some (Throw (ErrTransport (js "ECONNRESET")), w').
Proof.
  eexists.
  refine (proj1 (proj2 (proj2
            (operations_pass_on_transport_error (P := platform) clientData (js "abc") (js "Foo")
               (js "why") false false VNull None None None _ _ (js "ECONNRESET") []
               (world_of [inl (js "ECONNRESET")] []) eq_refl))) _ _).
  - vm_compute. reflexivity.
  - vm_compute. reflexivity.
Defined.

Lemma getStatusBy_status_threshold_witness :
  exists w',
    getStatusBy clientData (Some (mkDate (js "2018-11-01T00:00:00.000Z"))) None
      (Some [Running; Pending]) (world_of [answer 500 (VStr (js "boom"))] [])
    = Some (RejectedStatusCode 500 (VStr (js "boom")), w').
Proof.
  eexists.
  refine (proj2 (getStatusBy_status_threshold (P := platform) clientData
                   (Some (mkDate (js "2018-11-01T00:00:00.000Z"))) None
                   (Some [Running; Pending])
                   (world_of [answer 500 (VStr (js "boom"))] []) _
                   (mkResponse 500 (VStr (js "boom")) []) _) _).
  - vm_compute. reflexivity.
  - simpl; lia.
Defined.

Lemma getStatusAll_passes_any_status_witness :
  exists w',
    getStatusAll clientData (world_of [answer 503 (VStr (js "busy"))] [])
    = Some (Ok (VStr (js "busy")), w').
Proof.
  eexists.
  refine (proj1 (getStatusAll_passes_any_status (P := platform) clientData
                   (world_of [answer 503 (VStr (js "busy"))] []) _
                   (mkResponse 503 (VStr (js "busy")) []) _)).
  vm_compute. reflexivity.
Defined.

Lemma startNew_url_shape_witness :
  startNew_url clientData (js "Foo") (Some (js "abc"))
  = base ++ js "orchestrators/Foo/abc?code=k".
Proof.
  assert (D : ~ In dollar (js "abc")) by (apply free_of_check; reflexivity).
  exact (proj2 (proj2 (startNew_url_shape clientData (js "Foo")
                           (base ++ js "orchestrators/") [] (js "?code=k")
                           eq_refl
                           (free_of_check 123%N (base ++ js "orchestrators/") eq_refl)
                           (free_of_check 91%N (base ++ js "orchestrators/") eq_refl)
                           (free_of_check 91%N (js "Foo") eq_refl)
                           (free_of_check 91%N [] eq_refl)
                           (free_of_check dollar (js "Foo") eq_refl)))
             (js "abc") ltac:(discriminate) D).
Defined.

Lemma createCheckStatusResponse_needs_parsable_request_url_witness :
  createCheckStatusResponse clientData
    (Some (mkTrigger (Some (js "localhost/api")) None)) (js "abc")
  = Throw (TypeErrorInvalidURL (js "localhost/api")).
Proof.
  exact (createCheckStatusResponse_needs_parsable_request_url (P := platform) clientData
           (Some (mkTrigger (Some (js "localhost/api")) None)) (js "abc")
           (TypeErrorInvalidURL (js "localhost/api")) eq_refl eq_refl
           (or_intror (or_introl eq_refl))).
Defined.

Lemma createCheckStatusResponse_without_rewrite_witness :
  exists r,
    createCheckStatusResponse clientData (Some (mkTrigger None None)) (js "abc")
    = Ok r /\ status r = 202%Z.
Proof.
  destruct (createCheckStatusResponse_without_rewrite (P := platform) clientData
              (Some (mkTrigger None None)) (js "abc") (or_introl eq_refl))
    as [r [H [_ Hs]]].
  exists r. split; assumption.
Defined.

Lemma rooted_reference (t : jsstring) (u : URL) :
  is_url t = true ->
  parse t = Some u ->
  t = origin u ++ skipn 21 t ->
  rooted t (skipn 21 t).
Proof. intros H1 H2 H3. split; [exact H1 | now exists u]. Defined.

Lemma check_status_links_follow_request_origin_witness :
  exists r,
    createCheckStatusResponse clientData
      (Some (mkTrigger (Some (js "https://example.org:8080/api/start")) None))
      (js "abc") = Ok r /\
    lookup (js "Location") (headers r)
    = Some (VStr (js "https://example.org:8080/runtime/webhooks/durabletask/instances/abc"
                  ++ query)).
Proof.
  assert (R : forall t, In t [statusQueryGetUri (managementUrls clientData);
                              sendEventPostUri (managementUrls clientData);
                              terminatePostUri (managementUrls clientData);
                              rewindPostUri (managementUrls clientData);
                              purgeHistoryDeleteUri (managementUrls clientData)] ->
                        rooted t (skipn 21 t)).
  { intros t Ht.
    repeat (destruct Ht as [<-|Ht];
            [eapply rooted_reference; vm_compute; reflexivity|]).
    destruct Ht. }
  destruct (check_status_links_follow_request_origin (P := platform) clientData
              (Some (mkTrigger (Some (js "https://example.org:8080/api/start")) None))
              (js "abc")
              (mkURL (js "https:") (js "example.org") (js "8080") (js "/api/start")
                 [] (js "https://example.org:8080"))
              _ _ _ _ _ eq_refl eq_refl
              (free_of_check dollar (js "https://example.org:8080") eq_refl) eq_refl
              (R _ (or_introl eq_refl))
              (R _ (or_intror (or_introl eq_refl)))
              (R _ (or_intror (or_intror (or_introl eq_refl))))
              (R _ (or_intror (or_intror (or_intror (or_introl eq_refl)))))
              (R _ (or_intror (or_intror (or_intror (or_intror (or_introl eq_refl)))))))
    as [r [H1 [H2 _]]].
  exists r. split; [exact H1|]. rewrite H2. vm_compute. reflexivity.
Defined.

Lemma wait_aborts_when_a_status_query_fails_witness :
  exists w',
    waitForCompletionOrCreateCheckStatusResponse clientData None (js "abc")
      5000 1000
      (world_of [answer 202 (status_body Running VNull);
                 answer 503 (VStr (js "busy"))] [1])
    = Some (Throw (ErrUnrecognizedStatus 503 (VStr (js "busy"))), w') /\
    length (sent w') = 2%nat.
Proof.
  destruct status_url_parses as [u [Hu Hp]].
  eexists. split.
  - refine (proj2 (wait_aborts_when_a_status_query_fails (P := platform) clientData None (js "abc")
                     5000 1000 u [(running_answer, 1)]
                     (answer 503 (VStr (js "busy"))) [] []
                     (world_of [answer 202 (status_body Running VNull);
                                answer 503 (VStr (js "busy"))] [1])
                     _ Hu Hp eq_refl eq_refl _)
              (mkResponse 503 (VStr (js "busy")) []) eq_refl _).
    + unfold Qle; simpl; lia.
    + repeat constructor; try exact nonterminal_running; simpl; tauto.
    + intros [H|[H|[H|[H|H]]]]; discriminate H.
  - reflexivity.
Defined.

Lemma wait_run_effects_witness :
  exists r w',
    waitForCompletionOrCreateCheckStatusResponse clientData None (js "abc")
      2000 1000
      (world_of [answer 202 (status_body Running VNull);
                 answer 202 (status_body Running VNull)] [1500; 2001])
    = Some (Ok r, w') /\
    status r = 202%Z /\ length (sent w') = 2%nat /\ slept w' = [500].
Proof.
  destruct status_url_parses as [u [Hu Hp]].
  pose proof (proj1 (proj2
                (wait_run_effects (P := platform) clientData None (js "abc") 2000 1000 u
                   [(running_answer, 1500)] running_answer [] [2001]
                   (world_of [answer 202 (status_body Running VNull);
                              answer 202 (status_body Running VNull)] [1500; 2001])
                   ltac:(unfold Qle; simpl; lia) Hu Hp eq_refl eq_refl
                   ltac:(repeat constructor; try exact nonterminal_running;
                         simpl; tauto)
                   (or_intror (or_introl eq_refl))))
                nonterminal_running 2001 [] eq_refl
                ltac:(unfold Qle; simpl; lia)) as H.
  eexists. eexists. split.
  - rewrite H. vm_compute. reflexivity.
  - repeat split.
Defined.

End FurtherInstances.
